(** * fatx-tools: orphan validation / recovery and signature carving

    A shallow embedding of [fatx/analysis/orphan.py] and
    [fatx/analysis/signature.py], and the properties of the recovery
    core established on it.

    Python integers are [Z]; [bytes] objects are [list byte] and iterating
    one yields integers in [0, 255]; [str] is [string]; [None]-able
    attributes are [option]s. *)

From Stdlib Require Import ZArith Strings.Byte Strings.Ascii.
From stdpp Require Import gmap strings list pretty.

#[local] Set Warnings "-clear-no-such-hyp".
Local Open Scope Z_scope.

(** ** Python's [datetime] module, as far as the validator uses it *)

Module datetime.

Definition MINYEAR : Z := 1.
Definition MAXYEAR : Z := 9999.

(** [date.today()] returns a full calendar date. *)
Record date := mkdate { d_year : Z; d_month : Z; d_day : Z }.

Record t := mk
  { year : Z; month : Z; day : Z; hour : Z; minute : Z; second : Z }.

Definition is_leap (y : Z) : bool :=
  (y mod 4 =? 0) && (negb (y mod 100 =? 0) || (y mod 400 =? 0)).

Definition days_in_month (y m : Z) : Z :=
  if m =? 2 then (if is_leap y then 29 else 28)
  else if (m =? 4) || (m =? 6) || (m =? 9) || (m =? 11) then 30
  else 31.

Definition check_date_fields (y m d : Z) : bool :=
  (MINYEAR <=? y) && (y <=? MAXYEAR) &&
  (1 <=? m) && (m <=? 12) &&
  (1 <=? d) && (d <=? days_in_month y m).

Definition check_time_fields (h mi s : Z) : bool :=
  (0 <=? h) && (h <=? 23) && (0 <=? mi) && (mi <=? 59) &&
  (0 <=? s) && (s <=? 59).

(** The constructor [datetime(year=, month=, day=, hour=, minute=,
    second=)]; [None] stands for the [ValueError] it raises on a field
    that is out of range. *)
Definition new (y m d h mi s : Z) : option t :=
  if check_date_fields y m d && check_time_fields h mi s
  then Some (mk y m d h mi s)
  else None.

End datetime.

(** ** Collaborators of the core (not part of the two modules) *)

(** The timestamp object of a directory entry: the attributes the
    validator reads ([dt.year], [dt.month], [dt.day], [dt.hour], [dt.min],
    [dt.sec]). *)
Module FatXTimeStamp.
Record t := mk
  { year : Z; month : Z; day : Z; hour : Z; min : Z; sec : Z }.
End FatXTimeStamp.

(** What the core uses of the volume: its geometry, and where
    [seek_to_cluster] and [seek_file_area] put the read cursor of
    [infile].  The two seek targets are functions of the volume layout,
    which lives outside the core. *)
Record FatXVolume := mkVolume
  { max_clusters : Z;
    cluster_to_physical_offset : Z -> nat;
    file_area_physical_offset : Z -> nat }.

(** A directory entry found by the analyzer.  [is_directory] is the result
    of the base type's [is_directory()] predicate. *)
#[local] Unset Elimination Schemes.
Inductive FatXOrphan := mkOrphan
  { file_name_bytes : list byte;
    file_name : string;
    first_cluster : Z;
    file_size : Z;
    attributes : Z;
    creation_time : option FatXTimeStamp.t;
    last_write_time : option FatXTimeStamp.t;
    last_access_time : option FatXTimeStamp.t;
    is_directory : bool;
    children : list FatXOrphan;
    cluster : Z;
    offset : Z }.
#[local] Set Elimination Schemes.

(** ** [orphan.py]: the character table *)

(** Iterating a [bytes] object yields its bytes as integers. *)
Definition iter_bytes (b : list byte) : list Z :=
  (fun c => Z.of_N (Byte.to_N c)) <$> b.

(** [str.encode('cp437')] on a literal of printable ASCII characters. *)
Definition encode_ascii (s : string) : list byte := String.list_byte_of_string s.

(** The bytes [lo .. hi] in increasing order. *)
Definition byte_range (lo hi : N) : list byte :=
  omap Byte.of_N (N.of_nat <$> seq (N.to_nat lo) (S (N.to_nat hi) - N.to_nat lo)).

Definition ascii_uppercase : string := "ABCDEFGHIJKLMNOPQRSTUVWXYZ".
Definition ascii_lowercase : string := "abcdefghijklmnopqrstuvwxyz".
Definition digits : string := "0123456789".

(** The two literals of code page 437 characters of [VALID_CHARS] encode,
    as their comments in the source say, to the bytes 0x80 to 0xE4 and 0xE6
    to 0xFE; the yen sign is 0x9D and the small sigma 0xE5. *)
Definition cp437_80_E4 : list byte := byte_range 0x80 0xE4.
Definition cp437_E6_FE : list byte := byte_range 0xE6 0xFE.

Definition VALID_CHARS : gset Z :=
  list_to_set (iter_bytes (
    encode_ascii (ascii_uppercase +:+ digits +:+ "!#$%&'()-@[]^_`{}~ ") ++
    encode_ascii (ascii_lowercase +:+ ".[]") ++
    cp437_80_E4 ++
    cp437_E6_FE ++
    [xff] ++
    [x9d] ++
    [xe5])).

(** Declared by the source and used nowhere. *)
Definition INVALID_CHARS : gset Z :=
  list_to_set (iter_bytes (
    encode_ascii "+,;=" ++
    [x22] ++ encode_ascii "*/:<>?\|" ++
    [x00] ++ encode_ascii " " ++ [x20] ++
    [x7f])).

(** ** [orphan.py]: [FatXOrphan.is_valid] *)

Section Validator.

(** [fatx.filesystem.constants.VALID_FILE_ATTRIBUTES]. *)
Variable VALID_FILE_ATTRIBUTES : Z.
(** The volume the entry was found on. *)
Variable volume : FatXVolume.
(** What [date.today()] returns when the validator runs. *)
Variable today : datetime.date.

Definition is_valid_attributes (attr : Z) : bool :=
  Z.land attr (Z.lnot VALID_FILE_ATTRIBUTES) =? 0.

Definition is_valid_date (dt : option FatXTimeStamp.t) : bool :=
  match dt with
  | None => false
  | Some dt =>
      let year := FatXTimeStamp.year dt in
      if negb (year <=? datetime.d_year today) then false
      else
        match datetime.new year (FatXTimeStamp.month dt)
                (FatXTimeStamp.day dt) (FatXTimeStamp.hour dt)
                (FatXTimeStamp.min dt) (FatXTimeStamp.sec dt) with
        | None => false
        | Some _ => true
        end
  end.

(** The body of the method.  Both helpers are local definitions of the
    method; only [is_valid_date] is called. *)
Definition is_valid (self : FatXOrphan) : bool :=
  if first_cluster self >? max_clusters volume then false
  else if negb (forallb (fun c => bool_decide (c ∈ VALID_CHARS))
                  (iter_bytes (file_name_bytes self))) then false
  else
    let is_valid_attributes := is_valid_attributes in
    let is_valid_date := is_valid_date in
    if negb (is_valid_date (creation_time self)) ||
       negb (is_valid_date (last_write_time self)) ||
       negb (is_valid_date (last_access_time self))
    then false
    else true.

End Validator.


(** ** The world the recovery code acts on *)

(** The exceptions the core can meet.  [IOError] is an alias of [OSError]. *)
Inductive exn := OSError | ValueError | OverflowError | AttributeError.

Global Instance exn_eq_dec : EqDecision exn.
Proof. solve_decision. Defined.

Inductive LogRecord :=
  | LOG_info (fmt arg : string)
  | LOG_exception (fmt arg : string).

(** Every call that leaves the process, in the order it is made. *)
Inductive Event :=
  | EvSeek (pos : nat)
  | EvRead (size : Z)
  | EvMakedirs (path : string)
  | EvOpen (path : string)
  | EvWrite (path : string) (data : list byte)
  | EvSetTs (path : string)
  | EvLog (r : LogRecord).

(** The three timestamps of an entry, as [_set_ts] applies them. *)
Definition Stamps : Type :=
  option FatXTimeStamp.t * option FatXTimeStamp.t * option FatXTimeStamp.t.

Record World := mkWorld
  { (** the bytes behind [volume.infile] and its one read cursor *)
    infile_data : list byte;
    infile_pos : nat;
    (** the destination tree: directories, files with their content, and
        the timestamps applied to paths *)
    dirs : gset string;
    files : gmap string (list byte);
    stamps : gmap string Stamps;
    (** class attributes [Unnamed_Counter], by class *)
    Unnamed_Counter : gmap nat Z;
    trace : list Event }.

Definition emit (e : Event) (w : World) : World :=
  {| infile_data := infile_data w; infile_pos := infile_pos w;
     dirs := dirs w; files := files w; stamps := stamps w;
     Unnamed_Counter := Unnamed_Counter w; trace := trace w ++ [e] |}.

Definition set_pos (p : nat) (w : World) : World :=
  {| infile_data := infile_data w; infile_pos := p;
     dirs := dirs w; files := files w; stamps := stamps w;
     Unnamed_Counter := Unnamed_Counter w; trace := trace w |}.

Definition set_dirs (d : gset string) (w : World) : World :=
  {| infile_data := infile_data w; infile_pos := infile_pos w;
     dirs := d; files := files w; stamps := stamps w;
     Unnamed_Counter := Unnamed_Counter w; trace := trace w |}.

Definition set_files (f : gmap string (list byte)) (w : World) : World :=
  {| infile_data := infile_data w; infile_pos := infile_pos w;
     dirs := dirs w; files := f; stamps := stamps w;
     Unnamed_Counter := Unnamed_Counter w; trace := trace w |}.

Definition set_stamps (s : gmap string Stamps) (w : World) : World :=
  {| infile_data := infile_data w; infile_pos := infile_pos w;
     dirs := dirs w; files := files w; stamps := s;
     Unnamed_Counter := Unnamed_Counter w; trace := trace w |}.

Definition set_counters (c : gmap nat Z) (w : World) : World :=
  {| infile_data := infile_data w; infile_pos := infile_pos w;
     dirs := dirs w; files := files w; stamps := stamps w;
     Unnamed_Counter := c; trace := trace w |}.

(** When the operating system refuses a call.  Each answer may depend on
    everything that has happened so far.  The timestamp operation can
    fail with any exception: [utime_error] is the one it raises. *)
Record OS := mkOS
  { makedirs_fails : World -> string -> bool;
    open_fails : World -> string -> bool;
    write_fails : World -> string -> list byte -> bool;
    read_fails : World -> Z -> bool;
    utime_fails : World -> string -> bool;
    utime_error : World -> string -> exn }.

(** An operating system that refuses nothing. *)
Definition obliging : OS :=
  {| makedirs_fails := fun _ _ => false;
     open_fails := fun _ _ => false;
     write_fails := fun _ _ _ => false;
     read_fails := fun _ _ => false;
     utime_fails := fun _ _ => false;
     utime_error := fun _ _ => OSError |}.

(** A computation returns, raises, or runs out of loop fuel. *)
Inductive Result (A : Type) :=
  | Return (a : A) (w : World)
  | Raise (e : exn) (w : World)
  | OutOfFuel.
Arguments Return {A} a w.
Arguments Raise {A} e w.
Arguments OutOfFuel {A}.

Definition M (A : Type) : Type := World -> Result A.

Global Instance M_ret : MRet M := fun A a w => Return a w.

Global Instance M_bind : MBind M := fun A B f m w =>
  match m w with
  | Return a w' => f a w'
  | Raise e w' => Raise e w'
  | OutOfFuel => OutOfFuel
  end.

Definition raise {A} (e : exn) : M A := fun w => Raise e w.

Definition tell (e : Event) : M unit := fun w => Return tt (emit e w).

(** [try: body except <classes>: handler]. *)
Definition try_except {A} (body : M A) (caught : exn -> bool) (handler : M A)
  : M A := fun w =>
  match body w with
  | Raise e w' => if caught e then handler w' else Raise e w'
  | r => r
  end.

(** [for x in xs: body(x)]. *)
Definition for_each {A} (xs : list A) (body : A -> M unit) : M unit :=
  (fix loop (xs : list A) : M unit :=
     match xs with
     | [] => mret tt
     | x :: xs => body x ;; loop xs
     end) xs.

Definition LOG (r : LogRecord) : M unit := tell (EvLog r).

Section Primitives.

Variable os : OS.
Variable volume : FatXVolume.

(** [infile.seek(pos)]. *)
Definition infile_seek (pos : nat) : M unit := fun w =>
  Return tt (set_pos pos (emit (EvSeek pos) w)).

(** [infile.read(size)] of a buffered binary file: [size] bytes, fewer
    at the end of the file; everything up to the end for [-1]; a
    [ValueError] below [-1]. *)
Definition infile_read (size : Z) : M (list byte) := fun w =>
  let w1 := emit (EvRead size) w in
  if read_fails os w size then Raise OSError w1
  else if size <? -1 then Raise ValueError w1
  else
    let rest := drop (infile_pos w) (infile_data w) in
    let buf := if size =? -1 then rest else take (Z.to_nat size) rest in
    Return buf (set_pos (infile_pos w + length buf)%nat w1).

(** [volume.seek_to_cluster(cluster)]. *)
Definition seek_to_cluster (cluster : Z) : M unit :=
  infile_seek (cluster_to_physical_offset volume cluster).

(** Modelled from the spec: [volume.seek_file_area(offset, whence)] is
    missing from the sources; it positions the cursor of [infile] at an
    offset of the file area, [whence] as for [file.seek]: from the start
    (0), from the cursor (1), from the end (2). *)
Definition seek_file_area (offset : Z) (whence : Z) : M unit := fun w =>
  if whence =? 0 then
    infile_seek (file_area_physical_offset volume offset) w
  else if whence =? 1 then
    infile_seek (Z.to_nat (Z.of_nat (infile_pos w) + offset)) w
  else if whence =? 2 then
    infile_seek (Z.to_nat (Z.of_nat (length (infile_data w)) + offset)) w
  else Raise ValueError w.

(** [os.path.exists(path)]. *)
Definition path_exists (path : string) : M bool := fun w =>
  Return (bool_decide (path ∈ dirs w) || bool_decide (is_Some (files w !! path))) w.

(** [os.makedirs(path)]. *)
Definition makedirs (path : string) : M unit := fun w =>
  let w1 := emit (EvMakedirs path) w in
  if makedirs_fails os w path
     || bool_decide (path ∈ dirs w) || bool_decide (is_Some (files w !! path))
  then Raise OSError w1
  else Return tt (set_dirs ({[path]} ∪ dirs w) w1).

(** [open(path, 'wb')]: creates the file or truncates it. *)
Definition open_wb (path : string) : M unit := fun w =>
  let w1 := emit (EvOpen path) w in
  if open_fails os w path || bool_decide (path ∈ dirs w)
  then Raise OSError w1
  else Return tt (set_files (<[path := []]> (files w)) w1).

(** [f.write(buf)] on the file opened at [path]. *)
Definition f_write (path : string) (buf : list byte) : M unit := fun w =>
  let w1 := emit (EvWrite path buf) w in
  if write_fails os w path buf then Raise OSError w1
  else Return tt (set_files (alter (fun old => old ++ buf) path (files w)) w1).

(** Modelled from the spec: [FatXDirent._set_ts(path)] is missing from
    the sources; it is the best-effort operation that applies the
    entry's timestamps to a created path, and may fail, with whatever
    exception; on a path that does not exist it fails with [OSError]. *)
Definition _set_ts (self : FatXOrphan) (path : string) : M unit := fun w =>
  let w1 := emit (EvSetTs path) w in
  if utime_fails os w path then Raise (utime_error os w path) w1
  else if negb (bool_decide (path ∈ dirs w) || bool_decide (is_Some (files w !! path)))
  then Raise OSError w1
  else Return tt (set_stamps
         (<[path := (creation_time self, last_write_time self,
                     last_access_time self)]> (stamps w)) w1).

End Primitives.

(** ** [signature.py]: [FatXSignature] *)

(** A class object: its identity, its [__name__], and the classes after it
    in its method resolution order ([FatXSignature] included when it is
    an ancestor, [object] left out).  A class attribute is looked up in
    the class itself and then along this list. *)
Record PyClass := mkClass
  { cls_id : nat;
    __name__ : string;
    __mro__ : list nat }.

Module FatXSignature.

Record t := mk
  { length : Z;
    name : option string;
    _endian : string;
    _offset : Z;
    __class__ : PyClass }.

(** [__init__(offset, volume)] as run by a subclass [cls]. *)
Definition __init__ (cls : PyClass) (endian_fmt : string) (offset : Z) : t :=
  {| length := 0; name := None; _endian := endian_fmt; _offset := offset;
     __class__ := cls |}.

End FatXSignature.

(** [str.lower()] on an ASCII identifier. *)
Definition lower_ascii (c : ascii) : ascii :=
  let n := N_of_ascii c in
  if ((65 <=? n) && (n <=? 90))%N then ascii_of_N (n + 32) else c.

Fixpoint lower (s : string) : string :=
  match s with
  | EmptyString => EmptyString
  | String c s => String (lower_ascii c) (lower s)
  end.

(** [str(n)] for an integer. *)
Definition str (n : Z) : string := pretty n.

(** Attribute lookup along a resolution order: the first class that
    carries the attribute. *)
Fixpoint lookup_mro (attrs : gmap nat Z) (mro : list nat) : option Z :=
  match mro with
  | [] => None
  | c :: mro =>
      match attrs !! c with
      | Some v => Some v
      | None => lookup_mro attrs mro
      end
  end.

(** [getattr(cls, 'Unnamed_Counter')]. *)
Definition class_getattr (attrs : gmap nat Z) (cls : PyClass) : option Z :=
  lookup_mro attrs (cls_id cls :: __mro__ cls).

(** [hasattr(cls, 'Unnamed_Counter')]. *)
Definition class_hasattr (attrs : gmap nat Z) (cls : PyClass) : bool :=
  bool_decide (is_Some (class_getattr attrs cls)).

(** [cls.Unnamed_Counter = v]: always sets the attribute of [cls] itself. *)
Definition class_setattr (cls : PyClass) (v : Z) : M unit := fun w =>
  Return tt (set_counters (<[cls_id cls := v]> (Unnamed_Counter w)) w).

Definition get_file_name (self : FatXSignature.t) : M string :=
  let file_name := FatXSignature.name self in
  match file_name with
  | Some file_name => mret file_name
  | None =>
      let cls := FatXSignature.__class__ self in
      (fun w => if negb (class_hasattr (Unnamed_Counter w) cls)
                then class_setattr cls 1 w else Return tt w) ;;
      counter ← (fun w => match class_getattr (Unnamed_Counter w) cls with
                          | Some c => Return c w
                          | None => Raise AttributeError w
                          end) ;
      let file_name := lower (__name__ cls) +:+ str counter in
      counter ← (fun w => match class_getattr (Unnamed_Counter w) cls with
                          | Some c => Return c w
                          | None => Raise AttributeError w
                          end) ;
      class_setattr cls (counter + 1) ;;
      mret file_name
  end.

Section SignatureRecover.

Variable os : OS.
Variable volume : FatXVolume.

(** [seek(offset, whence=0)]: relative to where the signature starts. *)
Definition seek (self : FatXSignature.t) (offset : Z) (whence : Z) : M unit :=
  let offset := offset + FatXSignature._offset self in
  seek_file_area volume offset whence.

(** [read(size)]. *)
Definition read (self : FatXSignature.t) (size : Z) : M (list byte) :=
  infile_read os size.

(** [recover(path)].  The [with] block closes the file on every way
    out; closing changes nothing of what the world records. *)
Definition signature_recover (self : FatXSignature.t) (path : string)
  : M unit :=
  file_name ← get_file_name self ;
  let whole_path := path +:+ "/" +:+ file_name in
  open_wb os whole_path ;;
  if negb (FatXSignature.length self =? 0) &&
     (FatXSignature.length self <? 0xffffffff)
  then
    seek self 0 0 ;;
    data ← read self (FatXSignature.length self) ;
    f_write os whole_path data
  else mret tt.

End SignatureRecover.

(** ** [orphan.py]: [FatXOrphan.recover] *)

(** How a block of statements ends: by falling through, or by [return]. *)
Inductive Flow := Normal | Returned.

(** [except (OSError, IOError):] *)
Definition OSError_IOError (e : exn) : bool :=
  bool_decide (e = OSError).

(** [except (OSError, IOError, OverflowError):] *)
Definition OSError_IOError_OverflowError (e : exn) : bool :=
  bool_decide (e = OSError) || bool_decide (e = OverflowError).

(** A bare [except:]. *)
Definition anything (e : exn) : bool := true.

Section OrphanRecover.

Variable os : OS.
Variable volume : FatXVolume.

(** The [while remains > 0] loop.  [fuel] bounds the number of rounds;
    [recover_with] passes enough of it ([copy_chunks_fuel] below). *)
Fixpoint copy_chunks (fuel : nat) (bufsize : Z) (whole_path : string)
    (remains : Z) : M unit :=
  if remains >? 0 then
    match fuel with
    | O => fun _ => OutOfFuel
    | S fuel =>
        let read := Z.min remains bufsize in
        let remains := remains - read in
        buf ← infile_read os read ;
        f_write os whole_path buf ;;
        copy_chunks fuel bufsize whole_path remains
    end
  else mret tt.

(** The method, with the chunk size [bufsize] left open. *)
Fixpoint recover_with (bufsize : Z) (self : FatXOrphan) (path : string)
    {struct self} : M unit :=
  let whole_path := path +:+ "/" +:+ file_name self in
  seek_to_cluster volume (first_cluster self) ;;
  LOG (LOG_info "Recovering: %r" whole_path) ;;
  flow ←
    (if is_directory self then
       present ← path_exists whole_path ;
       flow ←
         (if negb present then
            try_except
              (makedirs os whole_path ;; mret Normal)
              OSError_IOError
              (LOG (LOG_exception "Failed to create directory: %s" whole_path) ;;
               mret Returned)
          else mret Normal) ;
       match flow with
       | Returned => mret Returned
       | Normal =>
           for_each (children self)
             (fun dirent => recover_with bufsize dirent whole_path) ;;
           mret Normal
       end
     else
       try_except
         (let remains := file_size self in
          open_wb os whole_path ;;
          copy_chunks (Z.to_nat remains) bufsize whole_path remains)
         OSError_IOError_OverflowError
         (LOG (LOG_exception "Failed to create file: %s" whole_path)) ;;
       mret Normal) ;
  match flow with
  | Returned => mret tt
  | Normal =>
      try_except
        (_set_ts os self whole_path)
        anything
        (LOG (LOG_exception "Failed to set timestamp." ""))
  end.

(** [bufsize = 0x100000]. *)
Definition recover : FatXOrphan -> string -> M unit :=
  recover_with 0x100000.

End OrphanRecover.

(** ** [signature.py]: the read primitives *)

(** The value of a byte. *)
Definition byte_value (b : byte) : Z := Z.of_N (Byte.to_N b).

(** The unsigned integer a sequence of bytes stands for, least
    significant byte first, and most significant byte first. *)
Fixpoint little_endian (buf : list byte) : Z :=
  match buf with
  | [] => 0
  | b :: buf => byte_value b + 256 * little_endian buf
  end.

Definition big_endian (buf : list byte) : Z := little_endian (rev buf).

(** What [struct.unpack(fmt, buf)[0]] comes to: a value, or the exception
    [struct.error]; [other_byte_order] stands for the formats left aside
    here. *)
Inductive Unpacked :=
  | unpacked (v : Z)
  | struct_error
  | other_byte_order.

(** [struct.unpack(endian + code, buf)[0]] for an unsigned code of [size]
    bytes ([B], [H], [I], [Q]) behind the byte-order character ['<'],
    ['>'] or ['!']: the buffer has to be [size] bytes long.  Native order
    and any other prefix are left aside. *)
Definition unpack_unsigned (endian : string) (size : nat) (buf : list byte)
  : Unpacked :=
  if String.eqb endian "<" then
    if (length buf =? size)%nat then unpacked (little_endian buf)
    else struct_error
  else if String.eqb endian ">" || String.eqb endian "!" then
    if (length buf =? size)%nat then unpacked (big_endian buf)
    else struct_error
  else other_byte_order.

(** [set_endian(endian)]. *)
Definition set_endian (self : FatXSignature.t) (endian : string)
  : FatXSignature.t :=
  {| FatXSignature.length := FatXSignature.length self;
     FatXSignature.name := FatXSignature.name self;
     FatXSignature._endian := endian;
     FatXSignature._offset := FatXSignature._offset self;
     FatXSignature.__class__ := FatXSignature.__class__ self |}.

Section Readers.

Variable os : OS.

(** [read_u8()], [read_u16()], [read_u32()], [read_u64()]. *)
Definition read_u8 (self : FatXSignature.t) : M Unpacked :=
  buf ← read os self 1 ;
  mret (unpack_unsigned (FatXSignature._endian self) 1 buf).

Definition read_u16 (self : FatXSignature.t) : M Unpacked :=
  buf ← read os self 2 ;
  mret (unpack_unsigned (FatXSignature._endian self) 2 buf).

Definition read_u32 (self : FatXSignature.t) : M Unpacked :=
  buf ← read os self 4 ;
  mret (unpack_unsigned (FatXSignature._endian self) 4 buf).

Definition read_u64 (self : FatXSignature.t) : M Unpacked :=
  buf ← read os self 8 ;
  mret (unpack_unsigned (FatXSignature._endian self) 8 buf).

(** [read_cstring()]: the [while True] loop, bounded by [fuel] rounds.
    The string it returns, [s.decode("cp437")], is given by its bytes:
    code page 437 assigns a character to every byte, and different
    characters to different bytes. *)
Fixpoint read_cstring_loop (fuel : nat) (self : FatXSignature.t)
    (s : list byte) : M (list byte) :=
  match fuel with
  | O => fun _ => OutOfFuel
  | S fuel =>
      c ← read os self 1 ;
      match c with
      | [x00] => mret s
      | _ => read_cstring_loop fuel self (s ++ c)
      end
  end.

Definition read_cstring (fuel : nat) (self : FatXSignature.t)
  : M (list byte) :=
  read_cstring_loop fuel self [].

End Readers.
(** ** Worked inputs *)

Definition ts_2020_01_01 : FatXTimeStamp.t := FatXTimeStamp.mk 2020 1 1 0 0 0.

(** [file_name_bytes = b"HELLO.TXT"], [first_cluster = 10],
    [attributes = 0], the three timestamps 2020-01-01 00:00:00. *)
Definition hello_txt : FatXOrphan :=
  {| file_name_bytes := encode_ascii "HELLO.TXT";
     file_name := "HELLO.TXT";
     first_cluster := 10;
     file_size := 4096;
     attributes := 0;
     creation_time := Some ts_2020_01_01;
     last_write_time := Some ts_2020_01_01;
     last_access_time := Some ts_2020_01_01;
     is_directory := false;
     children := [];
     cluster := 0;
     offset := 0 |}.

Definition with_attributes (a : Z) (d : FatXOrphan) : FatXOrphan :=
  {| file_name_bytes := file_name_bytes d; file_name := file_name d;
     first_cluster := first_cluster d; file_size := file_size d;
     attributes := a;
     creation_time := creation_time d; last_write_time := last_write_time d;
     last_access_time := last_access_time d; is_directory := is_directory d;
     children := children d; cluster := cluster d; offset := offset d |}.

(** A volume of 1000 clusters of 16 bytes whose file area starts at
    byte 0. *)
Definition small_volume : FatXVolume :=
  {| max_clusters := 1000;
     cluster_to_physical_offset := fun c => Z.to_nat (16 * (c - 1));
     file_area_physical_offset := Z.to_nat |}.


(** [n] bytes that differ from their neighbours. *)
Definition pattern (n : nat) : list byte :=
  omap (fun i => Byte.of_N (N.of_nat (i mod 251))) (seq 0 n).

(** A fresh run on a volume of [n] bytes: the cursor at the start, an
    empty destination tree, no class attribute set, nothing traced. *)
Definition fresh_run (n : nat) : World :=
  {| infile_data := pattern n; infile_pos := 0;
     dirs := ∅; files := ∅; stamps := ∅; Unnamed_Counter := ∅; trace := [] |}.

(** [class FooSignature(FatXSignature)], and one more class below it. *)
Definition FatXSignature_class : PyClass :=
  {| cls_id := 0; __name__ := "FatXSignature"; __mro__ := [] |}.
Definition FooSignature : PyClass :=
  {| cls_id := 1; __name__ := "FooSignature"; __mro__ := [0%nat] |}.
Definition BarSignature : PyClass :=
  {| cls_id := 2; __name__ := "BarSignature"; __mro__ := [1%nat; 0%nat] |}.

(** A [FooSignature] at offset 0x1000 after [parse()] set [length = 16]. *)
Definition foo_at_0x1000 : FatXSignature.t :=
  {| FatXSignature.length := 16; FatXSignature.name := None;
     FatXSignature._endian := "<"; FatXSignature._offset := 0x1000;
     FatXSignature.__class__ := FooSignature |}.

(** An operating system that refuses to create directories. *)
Definition no_mkdir : OS :=
  {| makedirs_fails := fun _ _ => true;
     open_fails := fun _ _ => false;
     write_fails := fun _ _ _ => false;
     read_fails := fun _ _ => false;
     utime_fails := fun _ _ => false;
     utime_error := fun _ _ => OSError |}.

Definition small_file (name : string) (first size : Z) : FatXOrphan :=
  {| file_name_bytes := encode_ascii name; file_name := name;
     first_cluster := first; file_size := size; attributes := 0;
     creation_time := Some ts_2020_01_01;
     last_write_time := Some ts_2020_01_01;
     last_access_time := Some ts_2020_01_01;
     is_directory := false; children := []; cluster := 0; offset := 0 |}.

Definition small_dir (name : string) (first : Z) (entries : list FatXOrphan)
  : FatXOrphan :=
  {| file_name_bytes := encode_ascii name; file_name := name;
     first_cluster := first; file_size := 0; attributes := 0x10;
     creation_time := Some ts_2020_01_01;
     last_write_time := Some ts_2020_01_01;
     last_access_time := Some ts_2020_01_01;
     is_directory := true; children := entries; cluster := 0; offset := 0 |}.

(** A directory [DOCS] with two small files. *)
Definition docs_dir : FatXOrphan :=
  small_dir "DOCS" 3 [small_file "A.TXT" 4 8; small_file "B.TXT" 5 8].

(** A fresh run on a volume holding [data]. *)
Definition volume_holding (data : list byte) : World :=
  {| infile_data := data; infile_pos := 0;
     dirs := ∅; files := ∅; stamps := ∅; Unnamed_Counter := ∅; trace := [] |}.

(** Two little-endian 16-bit words, then a name and its terminator. *)
Definition header_bytes : list byte :=
  [x34; x12; x78; x56] ++ encode_ascii "default.xbe" ++ [x00] ++
  encode_ascii "rest".

(** A second [FooSignature], further on in the volume. *)
Definition foo_at_0x1040 : FatXSignature.t :=
  {| FatXSignature.length := 32; FatXSignature.name := None;
     FatXSignature._endian := "<"; FatXSignature._offset := 0x1040;
     FatXSignature.__class__ := FooSignature |}.

(** Two signatures whose [parse()] found the same name. *)
Definition named_at (offset len : Z) : FatXSignature.t :=
  {| FatXSignature.length := len; FatXSignature.name := Some "default.xbe";
     FatXSignature._endian := "<"; FatXSignature._offset := offset;
     FatXSignature.__class__ := FooSignature |}.

(** An operating system that refuses every read, and one that refuses
    every open. *)
Definition no_read : OS :=
  {| makedirs_fails := fun _ _ => false;
     open_fails := fun _ _ => false;
     write_fails := fun _ _ _ => false;
     read_fails := fun _ _ => true;
     utime_fails := fun _ _ => false;
     utime_error := fun _ _ => OSError |}.

Definition no_open : OS :=
  {| makedirs_fails := fun _ _ => false;
     open_fails := fun _ _ => true;
     write_fails := fun _ _ _ => false;
     read_fails := fun _ _ => false;
     utime_fails := fun _ _ => false;
     utime_error := fun _ _ => OSError |}.

(** A signature whose [parse()] left [length] at -1. *)
Definition minus_one_at_4 : FatXSignature.t :=
  {| FatXSignature.length := -1; FatXSignature.name := Some "all";
     FatXSignature._endian := "<"; FatXSignature._offset := 4;
     FatXSignature.__class__ := FooSignature |}.

(** An operating system on which applying timestamps ends in a
    [ValueError]. *)
Definition utime_value_error : OS :=
  {| makedirs_fails := fun _ _ => false;
     open_fails := fun _ _ => false;
     write_fails := fun _ _ _ => false;
     read_fails := fun _ _ => false;
     utime_fails := fun _ _ => true;
     utime_error := fun _ _ => ValueError |}.

(** A volume of ten clusters of 16 bytes, and a file entry that starts in
    its last cluster. *)
Definition ten_clusters : FatXVolume :=
  {| max_clusters := 10;
     cluster_to_physical_offset := fun c => Z.to_nat (16 * (c - 1));
     file_area_physical_offset := Z.to_nat |}.

Definition last_cluster_file : FatXOrphan := small_file "LAST.BIN" 10 4096.
(** ** Vocabulary of the validator's properties *)

(** What it takes for [datetime(...)] to construct. *)
Definition fields_in_range (t : FatXTimeStamp.t) : Prop :=
  1 <= FatXTimeStamp.year t <= 9999 /\
  1 <= FatXTimeStamp.month t <= 12 /\
  1 <= FatXTimeStamp.day t <=
    datetime.days_in_month (FatXTimeStamp.year t) (FatXTimeStamp.month t) /\
  0 <= FatXTimeStamp.hour t <= 23 /\
  0 <= FatXTimeStamp.min t <= 59 /\
  0 <= FatXTimeStamp.sec t <= 59.

(** A timestamp that is present, constructs, and whose year is not after
    this year. *)
Definition plausible_timestamp (today : datetime.date)
    (dt : option FatXTimeStamp.t) : Prop :=
  exists t, dt = Some t /\ FatXTimeStamp.year t <= datetime.d_year today /\
            fields_in_range t.

(** The calendar date of [t] is after [today]. *)
Definition after_today (today : datetime.date) (t : FatXTimeStamp.t) : Prop :=
  datetime.d_year today < FatXTimeStamp.year t \/
  (FatXTimeStamp.year t = datetime.d_year today /\
   (datetime.d_month today < FatXTimeStamp.month t \/
    (FatXTimeStamp.month t = datetime.d_month today /\
     datetime.d_day today < FatXTimeStamp.day t))).

Definition timestamps (self : FatXOrphan) : list (option FatXTimeStamp.t) :=
  [creation_time self; last_write_time self; last_access_time self].

Definition name_bytes_allowed (self : FatXOrphan) : Prop :=
  Forall (fun c => c ∈ VALID_CHARS) (iter_bytes (file_name_bytes self)).


(** The printable ASCII bytes the table leaves out, and DEL. *)
Definition forbidden_name_bytes : list byte :=
  [x22] ++ encode_ascii "*+,/:;<=>?\|" ++ [x7f].

(** A name byte the validator lets through: not a control character and
    not one of [forbidden_name_bytes]. *)
Definition name_byte_ok (b : byte) : Prop :=
  (0x20 <= Byte.to_N b)%N /\ ~ In b forbidden_name_bytes.

(** The three names with a meaning of their own in a path. *)
Definition special_names : list (list byte) :=
  [[]; encode_ascii "."; encode_ascii ".."].

(** ** Vocabulary of the recovery properties *)

(** [parent + '/' + name]. *)
Definition join (parent name : string) : string := parent +:+ "/" +:+ name.

(** The path exists in the destination tree. *)
Definition exists_at (w : World) (p : string) : Prop :=
  p ∈ dirs w \/ is_Some (files w !! p).

Definition opens_succeed (os : OS) : Prop :=
  forall w p, open_fails os w p = false.
Definition reads_succeed (os : OS) : Prop :=
  forall w n, read_fails os w n = false.
Definition writes_succeed (os : OS) : Prop :=
  forall w p b, write_fails os w p b = false.

(** The [n] bytes of the volume from position [pos] on, or those there are
    when the volume ends before. *)
Definition volume_bytes (w : World) (pos : nat) (n : Z) : list byte :=
  take (Z.to_nat n) (drop pos (infile_data w)).

(** The world a computation ends in, if it ends. *)
Definition final_world {A} (r : Result A) : option World :=
  match r with
  | Return _ w => Some w
  | Raise _ w => Some w
  | OutOfFuel => None
  end.

(** The events a computation added to the trace. *)
Definition added (w w' : World) (evs : list Event) : Prop :=
  trace w' = trace w ++ evs.

(** [recover] of a signature skips the extraction. *)
Definition extraction_skipped (self : FatXSignature.t) : Prop :=
  FatXSignature.length self = 0 \/ 0xffffffff <= FatXSignature.length self.

(** The world as [FatXOrphan.recover] finds it after its first two
    statements: the cursor at the entry's first cluster, the progress
    message logged. *)
Definition entered (volume : FatXVolume) (self : FatXOrphan) (path : string)
    (w : World) : World :=
  emit (EvLog (LOG_info "Recovering: %r" (join path (file_name self))))
    (set_pos (cluster_to_physical_offset volume (first_cluster self))
       (emit (EvSeek (cluster_to_physical_offset volume (first_cluster self))) w)).

(** The entry is a directory that is not there yet and that the operating
    system refuses to create. *)
Definition directory_creation_fails (os : OS) (volume : FatXVolume)
    (self : FatXOrphan) (path : string) (w : World) : Prop :=
  is_directory self = true /\
  ~ exists_at w (join path (file_name self)) /\
  makedirs_fails os (entered volume self path w) (join path (file_name self)) = true.

(** The paths announced by the progress messages among some events. *)
Definition announced (evs : list Event) : list string :=
  omap (fun e => match e with
                 | EvLog (LOG_info "Recovering: %r" p) => Some p
                 | _ => None
                 end) evs.

(** The paths on which timestamp restoration was attempted. *)
Definition restorations (evs : list Event) : list string :=
  omap (fun e => match e with EvSetTs p => Some p | _ => None end) evs.

(** [get_file_name()] called on each signature of a list in turn. *)
Fixpoint auto_names (sigs : list FatXSignature.t) : M (list string) :=
  match sigs with
  | [] => mret []
  | s :: sigs =>
      n ← get_file_name s ; ns ← auto_names sigs ; mret (n :: ns)
  end.

(** [<lowercased type name><i>]. *)
Definition numbered (cls : PyClass) (i : Z) : string :=
  lower (__name__ cls) +:+ str i.

(** The last statement of [FatXOrphan.recover]: the guarded call of
    [_set_ts]. *)
Definition restore_timestamps (os : OS) (self : FatXOrphan) (whole_path : string)
  : M unit :=
  try_except (_set_ts os self whole_path) anything
    (LOG (LOG_exception "Failed to set timestamp." "")).

(** The first two events of a [recover] of [self] under [path]. *)
Definition entry_events (volume : FatXVolume) (self : FatXOrphan)
    (path : string) : list Event :=
  [EvSeek (cluster_to_physical_offset volume (first_cluster self));
   EvLog (LOG_info "Recovering: %r" (join path (file_name self)))].

(** Restoration of the entry's timestamps is attempted in the course of
    [recover], which returns. *)
Definition restoration_attempted (os : OS) (volume : FatXVolume)
    (self : FatXOrphan) (path : string) (w : World) : Prop :=
  exists w' evs,
    recover os volume self path w = Return tt w' /\
    trace w' = trace w ++ evs /\
    join path (file_name self) ∈ restorations evs.

(** The events of a [recover] of [child] under [parent] start with its
    seek and its progress message. *)
Definition recovers_under (volume : FatXVolume) (parent : string)
    (child : FatXOrphan) (evs : list Event) : Prop :=
  exists rest, evs = entry_events volume child parent ++ rest.

(** [recover] returns on every entry, and starts by seeking to the entry
    and announcing it. *)
Definition returns_announcing (os : OS) (volume : FatXVolume) (bufsize : Z)
    (self : FatXOrphan) : Prop :=
  forall path w, exists w' rest,
    recover_with os volume bufsize self path w = Return tt w' /\
    trace w' = trace w ++ entry_events volume self path ++ rest.

(** What a failed creation of the directory of [self] leaves behind. *)
Definition after_failed_creation (volume : FatXVolume) (self : FatXOrphan)
    (path : string) (w : World) : World :=
  emit (EvLog (LOG_exception "Failed to create directory: %s"
                 (join path (file_name self))))
    (emit (EvMakedirs (join path (file_name self)))
       (entered volume self path w)).

(** The way [recover] ends when it reaches its last statement in the
    world [w_before]: with the attempt to restore the timestamps, and the
    log record of the failure when [_set_ts] raised. *)
Definition ends_with_restoration (os : OS) (self : FatXOrphan)
    (whole : string) (w_before w' : World) : Prop :=
  (_set_ts os self whole w_before = Return tt w' /\
   trace w' = trace w_before ++ [EvSetTs whole]) \/
  (exists e w1,
     _set_ts os self whole w_before = Raise e w1 /\
     w' = emit (EvLog (LOG_exception "Failed to set timestamp." "")) w1 /\
     trace w' = trace w_before ++
       [EvSetTs whole; EvLog (LOG_exception "Failed to set timestamp." "")]).

(** The call on [s] is an unnamed call on the class [cls]. *)
Definition unnamed_call_on (cls : PyClass) (s : FatXSignature.t) : Prop :=
  FatXSignature.name s = None /\ cls_id (FatXSignature.__class__ s) = cls_id cls.

Global Instance unnamed_call_on_dec cls s : Decision (unnamed_call_on cls s).
Proof. unfold unnamed_call_on. apply _. Defined.

(** Of the names returned for the calls [sigs], those of the unnamed
    calls on [cls]. *)
Definition names_for (cls : PyClass) (sigs : list FatXSignature.t)
    (names : list string) : list string :=
  snd <$> filter (fun p => unnamed_call_on cls (fst p)) (zip sigs names).

(** [recover] of a file entry returns and leaves exactly [file_size]
    bytes in the destination file. *)
Definition writes_exactly_file_size (os : OS) (volume : FatXVolume)
    (self : FatXOrphan) (path : string) (w : World) : Prop :=
  exists w' content,
    recover os volume self path w = Return tt w' /\
    files w' !! join path (file_name self) = Some content /\
    Z.of_nat (length content) = file_size self.

(** [recover] of a signature returns and leaves at most [length] bytes in
    the file named by [get_file_name()]. *)
Definition writes_up_to_length (os : OS) (volume : FatXVolume)
    (self : FatXSignature.t) (path : string) (w : World) : Prop :=
  exists n w1 w' content,
    get_file_name self w = Return n w1 /\
    signature_recover os volume self path w = Return tt w' /\
    files w' !! join path n = Some content /\
    Z.of_nat (length content) <= FatXSignature.length self.

(** The content of the file at [p] when a computation has returned. *)
Definition file_after {A} (r : Result A) (p : string) : option (list byte) :=
  match r with
  | Return _ w => files w !! p
  | _ => None
  end.

(** The last event traced when a computation has returned. *)
Definition last_event {A} (r : Result A) : option Event :=
  match r with
  | Return _ w => last (trace w)
  | _ => None
  end.

(** ** Vocabulary of the further properties *)

(** The read of an unsigned integer of [size] bytes, as the four
    [read_u*] methods do it. *)
Definition read_unsigned (os : OS) (size : nat) (self : FatXSignature.t)
  : M Unpacked :=
  buf ← read os self (Z.of_nat size) ;
  mret (unpack_unsigned (FatXSignature._endian self) size buf).

(** The byte order is one of the two that [set_endian] documents. *)
Definition little (self : FatXSignature.t) : Prop :=
  FatXSignature._endian self = "<".
Definition big (self : FatXSignature.t) : Prop :=
  FatXSignature._endian self = ">".

(** The bytes of the volume under the cursor and after it. *)
Definition ahead (w : World) : list byte :=
  drop (infile_pos w) (infile_data w).

(** The decoding the byte order of [self] asks for. *)
Definition in_order (self : FatXSignature.t) (buf : list byte) : Z :=
  if String.eqb (FatXSignature._endian self) "<" then little_endian buf
  else big_endian buf.

(** A read of [k] bytes as an unsigned integer went through: it returned
    the value of the [k] bytes under the cursor, which lies below
    [256 ^ k], and moved the cursor past them. *)
Definition reads_value (m : M Unpacked) (k : nat) (self : FatXSignature.t)
    (w : World) : Prop :=
  exists v w',
    m w = Return (unpacked v) w' /\
    v = in_order self (take k (ahead w)) /\
    0 <= v < 256 ^ Z.of_nat k /\
    infile_pos w' = (infile_pos w + k)%nat.

(** A read of an unsigned integer met the end of the volume: it ended in
    [struct.error], with the cursor moved over the bytes that were left. *)
Definition reads_short (m : M Unpacked) (w : World) : Prop :=
  exists w',
    m w = Return struct_error w' /\
    infile_pos w' = (infile_pos w + length (ahead w))%nat.

(** [length] is one that makes [recover] extract. *)
Definition extracts (self : FatXSignature.t) : Prop :=
  0 < FatXSignature.length self < 0xffffffff.

(** The bytes [recover] extracts for [self]. *)
Definition carved (volume : FatXVolume) (self : FatXSignature.t) (w : World)
  : list byte :=
  volume_bytes w
    (file_area_physical_offset volume (FatXSignature._offset self))
    (FatXSignature.length self).

(** Class identifiers identify the classes of the signatures of a run. *)
Definition ids_identify (cls : PyClass) (sigs : list FatXSignature.t) : Prop :=
  Forall (fun s => cls_id (FatXSignature.__class__ s) = cls_id cls ->
                   FatXSignature.__class__ s = cls) sigs.

(** The path [p] lies below [path]: it is [path + '/' + s] for some [s]. *)
Definition under (path p : string) : Prop := exists s, p = join path s.

(** What an event of a recovery into [path] with chunks of [bufsize] may
    be: a read of at most [bufsize] bytes, or an access to a path below
    [path]. *)
Definition event_within (bufsize : Z) (path : string) (e : Event) : Prop :=
  match e with
  | EvRead n => 0 < n <= bufsize
  | EvOpen p | EvWrite p _ | EvMakedirs p | EvSetTs p => under path p
  | EvSeek _ | EvLog _ => True
  end.

(** Nothing that was there is gone: the directories and the files of [w]
    are still there in [w'], and the volume is as it was. *)
Definition keeps (w w' : World) : Prop :=
  dirs w ⊆ dirs w' /\
  (forall q, is_Some (files w !! q) -> is_Some (files w' !! q)) /\
  infile_data w' = infile_data w.

(** The entries of a tree with their destination paths, parents first,
    children in their order; the children of a file entry do not count. *)
Fixpoint preorder (path : string) (self : FatXOrphan) : list string :=
  join path (file_name self) ::
  (if is_directory self
   then concat (List.map (preorder (join path (file_name self))) (children self))
   else []).

(** The sizes of the reads among some events. *)
Definition read_sizes (evs : list Event) : list Z :=
  omap (fun e => match e with EvRead n => Some n | _ => None end) evs.

(** The operating system creates every directory it is asked for. *)
Definition makedirs_succeed (os : OS) : Prop :=
  forall w p, makedirs_fails os w p = false.

(** The paths some events open, write to, create or stamp. *)
Definition touched (evs : list Event) : list string :=
  omap (fun e => match e with
                 | EvOpen p | EvWrite p _ | EvMakedirs p | EvSetTs p => Some p
                 | _ => None
                 end) evs.

(** What [recover] does on a tree, whatever the operating system
    refuses: it returns; its reads and the paths it touches are within
    bounds; it removes nothing; and when every directory can be made, it
    announces the entries of the tree in order. *)
Definition recovers_within (os : OS) (volume : FatXVolume) (bufsize : Z)
    (self : FatXOrphan) : Prop :=
  forall path w, exists w' evs,
    recover_with os volume bufsize self path w = Return tt w' /\
    trace w' = trace w ++ evs /\
    Forall (event_within bufsize path) evs /\
    keeps w w' /\
    (makedirs_succeed os -> announced evs = preorder path self).

(** The sum of a list of integers. *)
Definition total (l : list Z) : Z := foldr Z.add 0 l.
(** * Properties of the validator *)

Lemma forallb_bool_decide {A} (P : A -> Prop) `{!forall x, Decision (P x)}
    (l : list A) :
  forallb (fun x => bool_decide (P x)) l = true <-> Forall P l.
Proof.
  induction l as [| x l IH]; simpl.
  - split; [constructor | done].
  - rewrite Forall_cons, andb_true_iff, bool_decide_eq_true. naive_solver.
Qed.

(** The table read byte by byte: every byte from 0x20 on is allowed except
    thirteen ASCII punctuation characters and DEL; the control characters
    are not. *)
Lemma VALID_CHARS_bytes (b : byte) :
  bool_decide (Z.of_N (Byte.to_N b) ∈ VALID_CHARS) =
  negb ((Byte.to_N b <? 0x20)%N ||
        existsb (Byte.eqb b) ([x22] ++ encode_ascii "*+,/:;<=>?\|" ++ [x7f])).
Proof. destruct b; vm_compute; reflexivity. Qed.

Lemma datetime_new_is_Some y m d h mi s :
  is_Some (datetime.new y m d h mi s) <->
  fields_in_range (FatXTimeStamp.mk y m d h mi s).
Proof.
  unfold datetime.new, fields_in_range, datetime.check_date_fields,
    datetime.check_time_fields, datetime.MINYEAR, datetime.MAXYEAR; simpl.
  split.
  - destruct (_ && _) eqn:E; [intros _ | intros [? ?]; discriminate].
    repeat (apply andb_prop in E; destruct E as [E ?]). lia.
  - intros H. replace (_ && _) with true; [eauto |].
    symmetry. repeat (apply andb_true_intro; split); lia.
Qed.

Lemma is_valid_date_true today dt :
  is_valid_date today dt = true <-> plausible_timestamp today dt.
Proof.
  unfold is_valid_date, plausible_timestamp.
  destruct dt as [t|]; [| split; [discriminate | intros (? & ? & _); discriminate]].
  pose proof (datetime_new_is_Some (FatXTimeStamp.year t) (FatXTimeStamp.month t)
    (FatXTimeStamp.day t) (FatXTimeStamp.hour t) (FatXTimeStamp.min t)
    (FatXTimeStamp.sec t)) as Hnew.
  destruct t as [y m d h mi s]; simpl in *.
  destruct (Z.leb_spec y (datetime.d_year today)); simpl.
  - destruct (datetime.new y m d h mi s) eqn:E.
    + split; [intros _ | done]. eexists; split; [done |]. split; [done |].
      apply Hnew; eauto.
    + split; [discriminate |]. intros (t & [= <-] & _ & Hr).
      apply Hnew in Hr. destruct Hr; discriminate.
  - split; [discriminate |]. intros (t & [= <-] & Hy & _). simpl in Hy. lia.
Qed.

(** The validator accepts exactly when the cluster, the name bytes and the
    three timestamps pass; [attributes] plays no part. *)
Lemma is_valid_true mask volume today self :
  is_valid mask volume today self = true <->
  first_cluster self <= max_clusters volume /\
  name_bytes_allowed self /\
  Forall (plausible_timestamp today) (timestamps self).
Proof.
  unfold is_valid, name_bytes_allowed, timestamps.
  rewrite !Forall_cons, Forall_nil, <- !is_valid_date_true.
  rewrite <- (forallb_bool_decide (fun c => c ∈ VALID_CHARS)).
  destruct (Z.gtb_spec (first_cluster self) (max_clusters volume)).
  { split; [discriminate | lia]. }
  destruct (forallb _ _); simpl; [| naive_solver].
  destruct (is_valid_date today (creation_time self)),
    (is_valid_date today (last_write_time self)),
    (is_valid_date today (last_access_time self)); simpl; naive_solver lia.
Qed.

Lemma is_valid_false mask volume today self :
  is_valid mask volume today self = false <->
  ~ (first_cluster self <= max_clusters volume /\
     name_bytes_allowed self /\
     Forall (plausible_timestamp today) (timestamps self)).
Proof.
  rewrite <- (is_valid_true mask).
  destruct (is_valid _ _ _ _); split; try done; intros H; by destruct H.
Qed.

(** C8.  A candidate whose [first_cluster] exceeds the volume's
    [max_clusters] is rejected, whatever its other fields hold. *)
Theorem is_valid_rejects_cluster_beyond_volume mask volume today self :
  max_clusters volume < first_cluster self ->
  is_valid mask volume today self = false.
Proof.
  intros H. apply is_valid_false. intros (Hc & _). lia.
Qed.

Lemma is_valid_rejects_cluster_beyond_volume_witness :
  is_valid 0x37 small_volume (datetime.mkdate 2026 11 3)
    {| file_name_bytes := encode_ascii "HELLO.TXT"; file_name := "HELLO.TXT";
       first_cluster := 10000; file_size := 4096; attributes := 0;
       creation_time := Some ts_2020_01_01;
       last_write_time := Some ts_2020_01_01;
       last_access_time := Some ts_2020_01_01;
       is_directory := false; children := []; cluster := 0; offset := 0 |}
  = false.
Proof.
  apply is_valid_rejects_cluster_beyond_volume. simpl. lia.
Defined.

(** C6.  A name byte outside [VALID_CHARS] makes the validator reject;
    and a candidate whose name bytes are all in [VALID_CHARS], whose
    [first_cluster] is at most [max_clusters], whose attributes lie within
    the mask and whose three timestamps are present, construct and are not
    after this year, is accepted. *)
Theorem is_valid_name_bytes mask volume today self :
  ((exists b, b ∈ file_name_bytes self /\
              Z.of_N (Byte.to_N b) ∉ VALID_CHARS) ->
   is_valid mask volume today self = false) /\
  (name_bytes_allowed self ->
   first_cluster self <= max_clusters volume ->
   is_valid_attributes mask (attributes self) = true ->
   Forall (plausible_timestamp today) (timestamps self) ->
   is_valid mask volume today self = true).
Proof.
  split.
  - intros (b & Hb & Hbad). apply is_valid_false. intros (_ & Hall & _).
    apply Hbad. unfold name_bytes_allowed, iter_bytes in Hall.
    rewrite Forall_fmap, Forall_forall in Hall. by apply (Hall b).
  - intros Hn Hc _ Ht. by apply is_valid_true.
Qed.

Lemma is_valid_name_bytes_witness :
  is_valid 0x37 small_volume (datetime.mkdate 2026 11 3)
    {| file_name_bytes := encode_ascii "A*B"; file_name := "A*B";
       first_cluster := 10; file_size := 4096; attributes := 0;
       creation_time := Some ts_2020_01_01;
       last_write_time := Some ts_2020_01_01;
       last_access_time := Some ts_2020_01_01;
       is_directory := false; children := []; cluster := 0; offset := 0 |}
  = false /\
  is_valid 0x37 small_volume (datetime.mkdate 2026 11 3) hello_txt = true.
Proof.
  split.
  - apply is_valid_name_bytes. exists x2a. split; [| by vm_compute].
    apply list_elem_of_In. simpl. tauto.
  - apply is_valid_name_bytes.
    + unfold name_bytes_allowed. apply (forallb_bool_decide _).
      by vm_compute.
    + simpl. lia.
    + reflexivity.
    + repeat constructor; exists ts_2020_01_01;
        (split; [reflexivity |]); (split; [simpl; lia |]);
        unfold fields_in_range; simpl; unfold datetime.days_in_month; simpl; lia.
Defined.

(** C7.  The validator rejects when one of the three timestamps is absent,
    has a year after this year, or has a field [datetime] refuses; a
    timestamp that constructs and is not after today passes the check, and
    with three of those the verdict is that of the cluster and name
    checks; the check looks at the year only, so a date later in this
    year passes it. *)
Theorem is_valid_timestamp_checks mask volume today self :
  (forall dt, dt ∈ timestamps self ->
     (dt = None \/
      exists t, dt = Some t /\
        (datetime.d_year today < FatXTimeStamp.year t \/
         ~ fields_in_range t)) ->
     is_valid mask volume today self = false) /\
  (forall t, fields_in_range t -> ~ after_today today t ->
     is_valid_date today (Some t) = true) /\
  (Forall (fun dt => exists t, dt = Some t /\ fields_in_range t /\
                               ~ after_today today t) (timestamps self) ->
   first_cluster self <= max_clusters volume ->
   name_bytes_allowed self ->
   is_valid mask volume today self = true) /\
  (forall t, fields_in_range t ->
     FatXTimeStamp.year t = datetime.d_year today -> after_today today t ->
     is_valid_date today (Some t) = true).
Proof.
  assert (forall t, fields_in_range t -> ~ after_today today t ->
            plausible_timestamp today (Some t)) as Hpast.
  { intros t Hr Hna. exists t. split; [done |]. split; [| done].
    unfold after_today in Hna. lia. }
  repeat split.
  - intros dt Hin Hbad. apply is_valid_false. intros (_ & _ & Hall).
    rewrite Forall_forall in Hall. destruct (Hall dt Hin) as (t & -> & Hy & Hr).
    destruct Hbad as [? | (t' & [= <-] & [? | ?])]; [done | lia | done].
  - intros t Hr Hna. apply is_valid_date_true. by apply Hpast.
  - intros Hall Hc Hn. apply is_valid_true. split; [done |]. split; [done |].
    eapply Forall_impl; [exact Hall |]. intros dt (t & -> & Hr & Hna).
    by apply Hpast.
  - intros t Hr Hy _. apply is_valid_date_true. exists t.
    split; [done |]. split; [lia | done].
Qed.

Lemma is_valid_timestamp_checks_witness :
  is_valid 0x37 small_volume (datetime.mkdate 2026 11 3)
    {| file_name_bytes := encode_ascii "HELLO.TXT"; file_name := "HELLO.TXT";
       first_cluster := 10; file_size := 4096; attributes := 0;
       creation_time := Some ts_2020_01_01;
       last_write_time := Some (FatXTimeStamp.mk 2020 13 1 0 0 0);
       last_access_time := Some ts_2020_01_01;
       is_directory := false; children := []; cluster := 0; offset := 0 |}
  = false /\
  is_valid_date (datetime.mkdate 2026 11 3)
    (Some (FatXTimeStamp.mk 2026 12 31 23 59 58)) = true.
Proof.
  split.
  - eapply (proj1 (is_valid_timestamp_checks _ _ _ _)).
    + apply list_elem_of_In. simpl. right. left. reflexivity.
    + right. eexists. split; [reflexivity |]. right.
      unfold fields_in_range. simpl. lia.
  - apply (is_valid_timestamp_checks 0x37 small_volume _ hello_txt).
    + unfold fields_in_range, datetime.days_in_month. simpl. lia.
    + reflexivity.
    + right. simpl. lia.
Defined.

(** C1 (what the code does).  The attribute test is
    defined inside the method and never called: the [HELLO.TXT] candidate
    is accepted with any [attributes], also one with a bit outside the
    mask. *)
Theorem is_valid_accepts_attributes_outside_mask mask today a :
  is_valid_attributes mask a = false ->
  2020 <= datetime.d_year today ->
  is_valid mask small_volume today (with_attributes a hello_txt) = true.
Proof.
  intros _ Hy. apply is_valid_true. split; [simpl; lia |]. split.
  - unfold name_bytes_allowed. apply (forallb_bool_decide _). by vm_compute.
  - repeat constructor; exists ts_2020_01_01;
      (split; [reflexivity |]); (split; [simpl; lia |]);
      unfold fields_in_range, datetime.days_in_month; simpl; lia.
Qed.

Lemma is_valid_accepts_attributes_outside_mask_witness :
  is_valid_attributes 0x37 0x08 = false /\
  is_valid 0x37 small_volume (datetime.mkdate 2026 11 3)
    (with_attributes 0x08 hello_txt) = true.
Proof.
  split; [reflexivity |].
  apply is_valid_accepts_attributes_outside_mask; [reflexivity | simpl; lia].
Defined.

(** The verdict does not depend on [attributes] or on the mask at all. *)
Lemma is_valid_ignores_attributes mask mask' volume today a self :
  is_valid mask volume today (with_attributes a self) =
  is_valid mask' volume today self.
Proof. reflexivity. Qed.

(** * Properties of the signature contract *)

Ltac run_M := unfold mbind, M_bind, mret, M_ret in *.

Lemma lookup_mro_insert_head attrs c v mro :
  lookup_mro (<[c := v]> attrs) (c :: mro) = Some v.
Proof. simpl. by rewrite lookup_insert_eq. Qed.

Lemma class_getattr_own attrs cls v :
  class_getattr (<[cls_id cls := v]> attrs) cls = Some v.
Proof. apply lookup_mro_insert_head. Qed.

(** What an unnamed call does: the name carries the counter the class
    sees (its own or an inherited one, 1 when there is none), and the
    class itself gets the next value. *)
Lemma get_file_name_unnamed self w :
  FatXSignature.name self = None ->
  let cls := FatXSignature.__class__ self in
  let counter := default 1 (class_getattr (Unnamed_Counter w) cls) in
  get_file_name self w =
  Return (lower (__name__ cls) +:+ str counter)
         (set_counters (<[cls_id cls := counter + 1]> (Unnamed_Counter w)) w).
Proof.
  intros Hname. unfold get_file_name. rewrite Hname. run_M.
  unfold class_hasattr, class_setattr.
  destruct (class_getattr (Unnamed_Counter w) (FatXSignature.__class__ self))
    as [c|] eqn:E; simpl.
  - by rewrite !E.
  - rewrite class_getattr_own. simpl. rewrite class_getattr_own. simpl.
    by rewrite insert_insert_eq.
Qed.

Lemma get_file_name_named self w n :
  FatXSignature.name self = Some n -> get_file_name self w = Return n w.
Proof. intros H. unfold get_file_name. by rewrite H. Qed.

(** [get_file_name] always returns, and touches the counters only. *)
Lemma get_file_name_returns self w :
  exists n c, get_file_name self w = Return n (set_counters c w).
Proof.
  destruct (FatXSignature.name self) as [n|] eqn:E.
  - exists n, (Unnamed_Counter w). rewrite (get_file_name_named _ _ n E).
    by destruct w.
  - eexists _, _. by apply get_file_name_unnamed.
Qed.

Lemma numbered_inj cls : Inj (=) (=) (numbered cls).
Proof.
  intros i j H. unfold numbered, str in H.
  apply (inj (String.append _)) in H. by apply (inj pretty) in H.
Qed.

(** Unnamed calls on one class in a row count upwards from the counter
    the class sees at the first of them. *)
Lemma auto_names_from cls sigs : forall w,
  Forall (fun s => FatXSignature.name s = None /\
                   FatXSignature.__class__ s = cls) sigs ->
  let k := default 1 (class_getattr (Unnamed_Counter w) cls) in
  exists w',
    auto_names sigs w =
    Return ((fun i => numbered cls (k + Z.of_nat i)) <$> seq 0 (length sigs)) w'.
Proof.
  induction sigs as [| s sigs IH]; intros w Hall k.
  - by exists w.
  - apply Forall_cons in Hall as [[Hn Hc] Hall]. simpl. run_M.
    rewrite (get_file_name_unnamed s w Hn), Hc. fold k.
    destruct (IH (set_counters (<[cls_id cls := k + 1]> (Unnamed_Counter w)) w)
                Hall) as (w' & ->).
    exists w'. simpl. rewrite class_getattr_own. simpl.
    f_equal. f_equal; [unfold numbered; by rewrite Z.add_0_r |].
    rewrite <- fmap_S_seq, <- list_fmap_compose. apply list_fmap_ext.
    intros _ i _. simpl. f_equal. lia.
Qed.

(** For a class that, like every class above it, carries no counter yet,
    [N] unnamed calls yield [<type>1 .. <type>N], pairwise distinct. *)
Lemma auto_names_fresh cls sigs w :
  Forall (fun s => FatXSignature.name s = None /\
                   FatXSignature.__class__ s = cls) sigs ->
  class_getattr (Unnamed_Counter w) cls = None ->
  exists names w',
    auto_names sigs w = Return names w' /\
    names = (fun i => numbered cls (Z.of_nat i)) <$> seq 1 (length sigs) /\
    NoDup names.
Proof.
  intros Hall Hfresh. destruct (auto_names_from cls sigs w Hall) as (w' & E).
  rewrite Hfresh in E. simpl in E. eexists _, w'. split; [exact E |].
  assert (((fun i => numbered cls (1 + Z.of_nat i)) <$> seq 0 (length sigs)) =
          ((fun i => numbered cls (Z.of_nat i)) <$> seq 1 (length sigs))) as ->.
  { rewrite <- fmap_S_seq, <- list_fmap_compose. apply list_fmap_ext.
    intros _ i _. simpl. f_equal. lia. }
  split; [done |].
  apply NoDup_fmap_2; [| apply NoDup_seq].
  intros i j H. apply numbered_inj in H. lia.
Qed.

Lemma lookup_mro_None attrs mro :
  (forall a, a ∈ mro -> attrs !! a = None) -> lookup_mro attrs mro = None.
Proof.
  induction mro as [| c mro IH]; intros H; simpl; [done |].
  rewrite (H c) by (by left). apply IH. intros a Ha. apply H. by right.
Qed.

(** Calls on other classes in between change nothing, as long as no class
    above [cls] gets a counter: in any run of calls in which no unnamed
    call is made on a class of the resolution order of [cls], the unnamed
    calls on [cls] are numbered upwards from the counter of [cls] (from 1
    when it has none). *)
Lemma auto_names_interleaved cls sigs : forall w,
  (forall a, a ∈ __mro__ cls -> Unnamed_Counter w !! a = None) ->
  Forall (fun s => FatXSignature.name s = None ->
                   cls_id (FatXSignature.__class__ s) ∉ __mro__ cls) sigs ->
  Forall (fun s => cls_id (FatXSignature.__class__ s) = cls_id cls ->
                   FatXSignature.__class__ s = cls) sigs ->
  let k := default 1 (Unnamed_Counter w !! cls_id cls) in
  exists names w',
    auto_names sigs w = Return names w' /\
    length names = length sigs /\
    names_for cls sigs names =
      (fun i => numbered cls (k + Z.of_nat i)) <$>
        seq 0 (length (filter (unnamed_call_on cls) sigs)).
Proof.
  induction sigs as [| s sigs IH]; intros w Habove Hnot Hsame k.
  - by exists [], w.
  - apply Forall_cons in Hnot as [Hs Hnot].
    apply Forall_cons in Hsame as [Hc Hsame].
    simpl. run_M.
    destruct (FatXSignature.name s) as [n |] eqn:Hname.
    + rewrite (get_file_name_named s w n Hname).
      destruct (IH w Habove Hnot Hsame) as (names & w' & -> & Hlen & Hnames).
      exists (n :: names), w'. split; [done |]. split; [simpl; lia |].
      unfold names_for in *. simpl.
      rewrite filter_cons_False by (intros [? _]; simpl in *; congruence).
      rewrite filter_cons_False by (intros [? _]; simpl in *; congruence).
      exact Hnames.
    + rewrite (get_file_name_unnamed s w Hname). cbv zeta.
      set (c := FatXSignature.__class__ s) in *.
      set (v := default 1 (class_getattr (Unnamed_Counter w) c)).
      set (w1 := set_counters (<[cls_id c := v + 1]> (Unnamed_Counter w)) w).
      assert (forall a, a ∈ __mro__ cls -> Unnamed_Counter w1 !! a = None)
        as Habove1.
      { intros a Ha. simpl. rewrite lookup_insert_ne; [by apply Habove |].
        intros <-. by apply (Hs eq_refl). }
      destruct (IH w1 Habove1 Hnot Hsame) as (names & w' & -> & Hlen & Hnames).
      exists (numbered c v :: names), w'. split; [done |].
      split; [simpl; lia |]. unfold names_for in *. simpl.
      destruct (decide (cls_id c = cls_id cls)) as [Hid | Hid].
      * rewrite filter_cons_True by (by split).
        rewrite filter_cons_True by (by split).
        assert (c = cls) as Hcls by (by apply Hc).
        assert (v = k) as Hv.
        { unfold v, k, class_getattr. rewrite Hcls. simpl.
          destruct (Unnamed_Counter w !! cls_id cls); [done |].
          by rewrite lookup_mro_None. }
        rewrite fmap_cons. cbn [length seq]. rewrite fmap_cons. cbn [snd].
        f_equal; [by rewrite Hcls, Hv, Z.add_0_r |].
        rewrite Hnames, <- fmap_S_seq, <- list_fmap_compose.
        apply list_fmap_ext. intros _ i _. unfold w1. simpl.
        rewrite Hcls, lookup_insert_eq, Hv. simpl. f_equal. lia.
      * rewrite filter_cons_False by (intros [_ ?]; done).
        rewrite filter_cons_False by (intros [_ ?]; done).
        rewrite Hnames. unfold w1. simpl. by rewrite lookup_insert_ne.
Qed.

(** C9 (what the code does).  [hasattr] and the attribute read
    follow the resolution order, so a class below a class that has
    already named a file starts from that class's count: after one
    unnamed [FooSignature], the first unnamed [BarSignature] (a subclass of
    [FooSignature]) is called [barsignature2]. *)
Theorem get_file_name_subclass_continues_parent_count :
  exists w',
    (a ← get_file_name (FatXSignature.__init__ FooSignature "<" 0) ;
     b ← get_file_name (FatXSignature.__init__ BarSignature "<" 0x200) ;
     mret (a, b)) (fresh_run 0)
    = Return ("foosignature1", "barsignature2") w'.
Proof. eexists. vm_compute. reflexivity. Qed.

(** What [recover] does once the file name is known and the open goes
    through: it stops there when the extraction is skipped, and otherwise
    seeks, reads once and writes what it read. *)
Lemma signature_recover_skipped os volume self path w n w1 :
  get_file_name self w = Return n w1 ->
  open_fails os w1 (join path n) = false ->
  join path n ∉ dirs w1 ->
  extraction_skipped self ->
  signature_recover os volume self path w =
  Return tt (set_files (<[join path n := []]> (files w1))
               (emit (EvOpen (join path n)) w1)).
Proof.
  intros Hn Ho Hd Hs. unfold signature_recover. run_M. rewrite Hn.
  fold (join path n). unfold open_wb. rewrite Ho.
  rewrite bool_decide_eq_false_2 by done. simpl.
  replace (negb _ && _) with false; [done |].
  symmetry. apply andb_false_iff. destruct Hs as [-> | Hs]; [by left |].
  right. lia.
Qed.

Lemma signature_recover_extracting os volume self path w n w1 :
  get_file_name self w = Return n w1 ->
  open_fails os w1 (join path n) = false ->
  join path n ∉ dirs w1 ->
  reads_succeed os -> writes_succeed os ->
  0 < FatXSignature.length self < 0xffffffff ->
  let pos := file_area_physical_offset volume (FatXSignature._offset self) in
  let data := volume_bytes w1 pos (FatXSignature.length self) in
  exists w',
    signature_recover os volume self path w = Return tt w' /\
    files w' = <[join path n := data]> (files w1) /\
    dirs w' = dirs w1 /\
    infile_pos w' = (pos + length data)%nat /\
    trace w' = trace w1 ++ [EvOpen (join path n); EvSeek pos;
                            EvRead (FatXSignature.length self);
                            EvWrite (join path n) data].
Proof.
  intros Hn Ho Hd Hr Hw Hl pos data. unfold signature_recover. run_M.
  rewrite Hn. fold (join path n). unfold open_wb. rewrite Ho.
  rewrite bool_decide_eq_false_2 by done. simpl.
  replace (negb _ && _) with true
    by (symmetry; apply andb_true_intro; split;
        [apply negb_true_iff | ]; lia).
  unfold seek, seek_file_area, infile_seek, read, infile_read, f_write. simpl.
  rewrite Z.add_0_l. fold pos. rewrite Hr.
  replace (FatXSignature.length self <? -1) with false by (symmetry; lia).
  replace (FatXSignature.length self =? -1) with false by (symmetry; lia).
  simpl. rewrite Hw.
  eexists. split; [reflexivity |]. simpl.
  repeat split.
  - by rewrite alter_insert_eq.
  - by rewrite <- !app_assoc.
Qed.

(** C4 (corrected).  For a [length] that is not negative, when the
    destination file can be opened and neither the read nor the write is
    refused, the default [recover] writes up to [length] bytes of the
    volume, from the position of the signature's offset on, into
    [path + '/' + get_file_name()]; with [length] 0 or the 32-bit maximum
    nothing is sought or read and the file stays empty; a signature with
    [length = 16] at 0x1000 of a volume that reaches that far yields the
    16 bytes there. *)
Theorem signature_recover_writes_length_bytes os volume self path w n w1 :
  get_file_name self w = Return n w1 ->
  opens_succeed os -> reads_succeed os -> writes_succeed os ->
  join path n ∉ dirs w ->
  0 <= FatXSignature.length self ->
  let pos := file_area_physical_offset volume (FatXSignature._offset self) in
  exists w' content,
    signature_recover os volume self path w = Return tt w' /\
    files w' !! join path n = Some content /\
    Z.of_nat (length content) <= FatXSignature.length self /\
    (FatXSignature.length self = 0 \/
     FatXSignature.length self = 0xffffffff ->
     content = [] /\ infile_pos w' = infile_pos w /\
     trace w' = trace w ++ [EvOpen (join path n)]) /\
    (0 < FatXSignature.length self < 0xffffffff ->
     content = volume_bytes w pos (FatXSignature.length self) /\
     ((pos + Z.to_nat (FatXSignature.length self) <= length (infile_data w))%nat ->
      Z.of_nat (length content) = FatXSignature.length self)).
Proof.
  intros Hn Ho Hr Hw Hd Hl pos.
  destruct (get_file_name_returns self w) as (n' & c & Hn').
  rewrite Hn in Hn'. injection Hn' as -> ->.
  destruct (decide (0 < FatXSignature.length self < 0xffffffff)) as [Hin | Hout].
  - destruct (signature_recover_extracting os volume self path w n' _ Hn
                (Ho _ _) Hd Hr Hw Hin) as (w' & E & Hf & _).
    exists w', (volume_bytes w pos (FatXSignature.length self)).
    split; [done |]. split; [rewrite Hf; apply lookup_insert_eq |].
    unfold volume_bytes. split; [rewrite length_take; lia |].
    split; [lia |]. intros _. split; [done |]. intros Hlen.
    rewrite length_take, length_drop. lia.
  - assert (extraction_skipped self) as Hs by (unfold extraction_skipped; lia).
    rewrite (signature_recover_skipped os volume self path w n' _ Hn
               (Ho _ _) Hd Hs).
    eexists _, []. split; [done |].
    split; [simpl; apply lookup_insert_eq |].
    simpl. split; [lia |]. split; [done | lia].
Qed.

Lemma signature_recover_writes_length_bytes_witness :
  let self := foo_at_0x1000 in
  let w := fresh_run 0x1100 in
  let pos := file_area_physical_offset small_volume (FatXSignature._offset self) in
  exists w' content,
    signature_recover obliging small_volume self "/out" w = Return tt w' /\
    files w' !! join "/out" "foosignature1" = Some content /\
    content = volume_bytes w pos (FatXSignature.length self) /\
    Z.of_nat (length content) = FatXSignature.length self.
Proof.
  intros self w pos.
  assert (0 < FatXSignature.length self < 0xffffffff) as Hin
    by (split; reflexivity).
  destruct (signature_recover_writes_length_bytes obliging small_volume
              self "/out" w "foosignature1"
              (set_counters {[1%nat := 2]} w))
    as (w' & content & E & Hf & _ & _ & Hc).
  - reflexivity.
  - intros ? ?. reflexivity.
  - intros ? ?. reflexivity.
  - intros ? ? ?. reflexivity.
  - apply not_elem_of_empty.
  - discriminate.
  - destruct (Hc Hin) as [Hcontent Hlen].
    exists w', content. split; [exact E |]. split; [exact Hf |].
    split; [exact Hcontent |]. apply Hlen.
    apply Nat.leb_le. vm_compute. reflexivity.
Defined.

(** C4 does not hold as stated.  A signature with [length = -1] passes
    the test of [recover]; [read(-1)] is the read without a bound, and
    the file receives everything from the signature's offset to the end
    of the volume.  And when the open of the destination is refused,
    [recover] raises and writes nothing. *)
Lemma signature_recover_negative_length_unbounded :
  (file_after (signature_recover obliging small_volume minus_one_at_4 "/out"
                 (volume_holding header_bytes)) (join "/out" "all")
     = Some (drop 4 header_bytes) /\
   last_event (signature_recover obliging small_volume minus_one_at_4 "/out"
                 (volume_holding header_bytes))
     = Some (EvWrite (join "/out" "all") (drop 4 header_bytes)) /\
   ~ writes_up_to_length obliging small_volume minus_one_at_4 "/out"
       (volume_holding header_bytes)) /\
  ~ writes_up_to_length no_open small_volume foo_at_0x1000 "/out"
      (fresh_run 0x1100).
Proof.
  assert (file_after (signature_recover obliging small_volume minus_one_at_4
                        "/out" (volume_holding header_bytes)) (join "/out" "all")
          = Some (drop 4 header_bytes)) as Hall by (vm_compute; reflexivity).
  split; [split; [exact Hall |]; split; [vm_compute; reflexivity |] |].
  - intros (n & w1 & w' & content & Hn & E & Hf & Hlen).
    assert (n = "all") as -> by (vm_compute in Hn; congruence).
    rewrite E in Hall. simpl in Hall. rewrite Hf in Hall.
    injection Hall as ->. vm_compute in Hlen. by apply Hlen.
  - intros (n & w1 & w' & content & _ & E & _).
    assert (match signature_recover no_open small_volume foo_at_0x1000
                    "/out" (fresh_run 0x1100) with
            | Raise OSError _ => True
            | _ => False
            end) as Hraised by (vm_compute; exact I).
    by rewrite E in Hraised.
Qed.

(** C10.  Whenever the open goes through, the file at
    [path + '/' + get_file_name()] exists when [recover] is over, however
    it ends; and for [length] 0 and for every [length] from 0xffffffff
    upwards [recover] returns with the file empty, having sought and read
    nothing. *)
Theorem signature_recover_always_creates os volume self path w n w1 :
  get_file_name self w = Return n w1 ->
  open_fails os w1 (join path n) = false ->
  join path n ∉ dirs w ->
  (exists w', final_world (signature_recover os volume self path w) = Some w' /\
              is_Some (files w' !! join path n)) /\
  (FatXSignature.length self = 0 \/ 0xffffffff <= FatXSignature.length self ->
   exists w', signature_recover os volume self path w = Return tt w' /\
              files w' !! join path n = Some [] /\
              infile_pos w' = infile_pos w /\
              trace w' = trace w ++ [EvOpen (join path n)]).
Proof.
  intros Hn Ho Hd.
  destruct (get_file_name_returns self w) as (n' & c & Hn').
  rewrite Hn in Hn'. injection Hn' as -> ->.
  assert (forall w', files w' = <[join path n' := []]> (files w) \/
                     (exists b, files w' = <[join path n' := b]> (files w)) ->
                     is_Some (files w' !! join path n')) as Hsome.
  { intros w' [-> | [b ->]]; rewrite lookup_insert_eq; eauto. }
  split.
  - unfold signature_recover. run_M. rewrite Hn. fold (join path n').
    unfold open_wb. rewrite Ho. rewrite bool_decide_eq_false_2 by done. simpl.
    destruct (negb _ && _); simpl; [| eexists; split; [done |]; apply Hsome; by left].
    unfold seek, seek_file_area, infile_seek, read, infile_read, f_write. simpl.
    repeat (match goal with
            | |- context [if ?b then _ else _] => destruct b; simpl
            end);
      (eexists; split; [done |]; apply Hsome; simpl;
       rewrite ?alter_insert_eq; eauto).
  - intros Hs.
    assert (extraction_skipped self) as Hs' by (unfold extraction_skipped; lia).
    rewrite (signature_recover_skipped os volume self path w n' _ Hn Ho Hd Hs').
    eexists. split; [done |]. simpl. split; [apply lookup_insert_eq | done].
Qed.

Lemma signature_recover_always_creates_witness :
  exists w',
    signature_recover obliging small_volume
      {| FatXSignature.length := 0x100000000; FatXSignature.name := None;
         FatXSignature._endian := "<"; FatXSignature._offset := 0x1000;
         FatXSignature.__class__ := FooSignature |} "/out" (fresh_run 32)
    = Return tt w' /\
    files w' !! "/out/foosignature1" = Some [] /\
    infile_pos w' = 0%nat /\
    trace w' = [EvOpen "/out/foosignature1"].
Proof.
  apply (signature_recover_always_creates obliging small_volume _ "/out"
           (fresh_run 32) "foosignature1"
           (set_counters {[1%nat := 2]} (fresh_run 32))).
  - reflexivity.
  - reflexivity.
  - simpl. apply not_elem_of_empty.
  - right. simpl. lia.
Defined.

(** * Properties of orphan recovery *)

Lemma FatXOrphan_tree_ind (P : FatXOrphan -> Prop) :
  (forall self, Forall P (children self) -> P self) ->
  forall self, P self.
Proof.
  intros H. fix IH 1. intros self. apply H.
  destruct self as [? ? ? ? ? ? ? ? ? cs ? ?]. simpl.
  induction cs as [| c cs IHcs]; constructor; [apply IH | exact IHcs].
Qed.

Lemma recover_with_eq os volume bufsize self path :
  recover_with os volume bufsize self path =
  let whole_path := join path (file_name self) in
  seek_to_cluster volume (first_cluster self) ;;
  LOG (LOG_info "Recovering: %r" whole_path) ;;
  flow ←
    (if is_directory self then
       present ← path_exists whole_path ;
       flow ←
         (if negb present then
            try_except
              (makedirs os whole_path ;; mret Normal)
              OSError_IOError
              (LOG (LOG_exception "Failed to create directory: %s" whole_path) ;;
               mret Returned)
          else mret Normal) ;
       match flow with
       | Returned => mret Returned
       | Normal =>
           for_each (children self)
             (fun dirent => recover_with os volume bufsize dirent whole_path) ;;
           mret Normal
       end
     else
       try_except
         (let remains := file_size self in
          open_wb os whole_path ;;
          copy_chunks os (Z.to_nat remains) bufsize whole_path remains)
         OSError_IOError_OverflowError
         (LOG (LOG_exception "Failed to create file: %s" whole_path)) ;;
       mret Normal) ;
  match flow with
  | Returned => mret tt
  | Normal => restore_timestamps os self whole_path
  end.
Proof. destruct self. reflexivity. Qed.

Lemma announced_app a b : announced (a ++ b) = announced a ++ announced b.
Proof. apply omap_app. Qed.

Lemma restorations_app a b :
  restorations (a ++ b) = restorations a ++ restorations b.
Proof. apply omap_app. Qed.

Lemma entered_trace volume self path w :
  trace (entered volume self path w) = trace w ++ entry_events volume self path.
Proof. unfold entered, entry_events. simpl. by rewrite <- app_assoc. Qed.

(** The guarded [_set_ts] never lets an exception out: it ends with the
    attempt, or with the attempt and the log record of its failure. *)
Lemma restore_timestamps_returns os self p w :
  exists w',
    restore_timestamps os self p w = Return tt w' /\
    files w' = files w /\ dirs w' = dirs w /\
    (trace w' = trace w ++ [EvSetTs p] \/
     trace w' = trace w ++ [EvSetTs p;
                            EvLog (LOG_exception "Failed to set timestamp." "")]).
Proof.
  unfold restore_timestamps, try_except, _set_ts.
  destruct (utime_fails os w p); [| destruct (negb _)]; simpl.
  - eexists. split; [reflexivity |]. simpl. do 2 (split; [done |]).
    right. by rewrite <- app_assoc.
  - eexists. split; [reflexivity |]. simpl. do 2 (split; [done |]).
    right. by rewrite <- app_assoc.
  - eexists. split; [reflexivity |]. simpl. do 2 (split; [done |]). by left.
Qed.

(** The same, telling the two endings apart by what [_set_ts] did. *)
Lemma restore_timestamps_cases os self p w :
  exists w',
    restore_timestamps os self p w = Return tt w' /\
    ((_set_ts os self p w = Return tt w' /\
      trace w' = trace w ++ [EvSetTs p]) \/
     (exists e w1,
        _set_ts os self p w = Raise e w1 /\
        w' = emit (EvLog (LOG_exception "Failed to set timestamp." "")) w1 /\
        trace w' = trace w ++
          [EvSetTs p; EvLog (LOG_exception "Failed to set timestamp." "")])).
Proof.
  unfold restore_timestamps, try_except, _set_ts.
  destruct (utime_fails os w p); [| destruct (negb _)]; simpl.
  - eexists. split; [reflexivity |]. right. eexists _, _.
    split; [reflexivity |]. split; [reflexivity |]. simpl.
    by rewrite <- app_assoc.
  - eexists. split; [reflexivity |]. right. eexists _, _.
    split; [reflexivity |]. split; [reflexivity |]. simpl.
    by rewrite <- app_assoc.
  - eexists. split; [reflexivity |]. by left.
Qed.

(** The copy loop never runs out of the fuel [recover_with] gives it, and
    lets nothing out but an [OSError]. *)
Lemma copy_chunks_ends os bufsize p : 0 < bufsize ->
  forall fuel remains w, (Z.to_nat remains <= fuel)%nat ->
  exists w' evs,
    (copy_chunks os fuel bufsize p remains w = Return tt w' \/
     copy_chunks os fuel bufsize p remains w = Raise OSError w') /\
    dirs w' = dirs w /\
    (is_Some (files w !! p) -> is_Some (files w' !! p)) /\
    trace w' = trace w ++ evs /\
    announced evs = [] /\ restorations evs = [].
Proof.
  intros Hb. induction fuel as [| fuel IH]; intros remains w Hfuel.
  - exists w, []. simpl. replace (remains >? 0) with false by (symmetry; lia).
    rewrite app_nil_r. eauto 10.
  - simpl. destruct (Z.gtb_spec remains 0) as [Hpos | Hle];
      [| exists w, []; rewrite app_nil_r; eauto 10].
    run_M. unfold infile_read.
    destruct (read_fails os w _).
    { eexists _, [_]. split; [right; reflexivity |]. simpl. eauto 10. }
    replace (Z.min remains bufsize <? -1) with false by (symmetry; lia).
    replace (Z.min remains bufsize =? -1) with false by (symmetry; lia).
    unfold f_write.
    destruct (write_fails os _ _ _).
    { eexists _, [_; _]. split; [right; reflexivity |]. simpl.
      rewrite <- app_assoc. eauto 10. }
    match goal with |- context [copy_chunks os fuel bufsize p ?r ?w1] =>
      destruct (IH r w1) as (w' & evs & Hres & Hd & Hf & Ht & Ha & Hs); [lia |]
    end.
    exists w', ([EvRead (Z.min remains bufsize);
                 EvWrite p (take (Z.to_nat (Z.min remains bufsize))
                              (drop (infile_pos w) (infile_data w)))] ++ evs).
    split; [exact Hres |]. simpl in *. split; [done |]. split.
    + intros Hsome. apply Hf. rewrite lookup_alter_eq. by apply fmap_is_Some.
    + rewrite Ht, <- !app_assoc. split; [done |].
      unfold announced, restorations in *. simpl. by rewrite Ha, Hs.
Qed.

(** Reading [n] bytes as a chunk of [k] and then the rest gives the same
    bytes, also when the volume ends inside either part. *)
Lemma take_chunk_then_rest (rest : list byte) (k n : nat) :
  (k <= n)%nat ->
  take n rest = take k rest ++ take (n - k) (drop (length (take k rest)) rest).
Proof.
  intros Hk. destruct (decide (k <= length rest)%nat) as [Hin | Hout].
  - rewrite length_take_le by done. rewrite take_take_drop. f_equal. lia.
  - rewrite (take_ge rest k) by lia. rewrite drop_all, take_nil, app_nil_r.
    apply take_ge. lia.
Qed.

(** When no read and no write is refused, the loop appends to the file
    the next [remains] bytes under the cursor, whatever the chunk size. *)
Lemma copy_chunks_copies os bufsize p :
  0 < bufsize -> reads_succeed os -> writes_succeed os ->
  forall fuel remains w acc,
    (Z.to_nat remains <= fuel)%nat ->
    files w !! p = Some acc ->
    exists w',
      copy_chunks os fuel bufsize p remains w = Return tt w' /\
      files w' = <[p := acc ++ volume_bytes w (infile_pos w) remains]> (files w) /\
      dirs w' = dirs w.
Proof.
  intros Hb Hr Hw. unfold volume_bytes.
  induction fuel as [| fuel IH]; intros remains w acc Hfuel Hacc.
  - exists w. simpl. replace (remains >? 0) with false by (symmetry; lia).
    replace (Z.to_nat remains) with 0%nat by lia.
    rewrite take_0, app_nil_r, insert_id by done. done.
  - simpl. destruct (Z.gtb_spec remains 0) as [Hpos | Hle].
    2:{ exists w. replace (Z.to_nat remains) with 0%nat by lia.
        rewrite take_0, app_nil_r, insert_id by done. done. }
    run_M. unfold infile_read. rewrite Hr.
    replace (Z.min remains bufsize <? -1) with false by (symmetry; lia).
    replace (Z.min remains bufsize =? -1) with false by (symmetry; lia).
    unfold f_write. rewrite Hw.
    set (k := Z.to_nat (Z.min remains bufsize)).
    set (rest := drop (infile_pos w) (infile_data w)).
    match goal with |- context [copy_chunks os fuel bufsize p ?r ?w1] =>
      destruct (IH r w1 (acc ++ take k rest)) as (w' & E & Hf & Hd);
        [lia | simpl; by rewrite lookup_alter_eq, Hacc |]
    end.
    exists w'. split; [exact E |]. split; [| exact Hd].
    rewrite Hf. simpl. rewrite insert_alter_eq. f_equal.
    rewrite <- app_assoc. f_equal.
    rewrite <- drop_drop. fold rest.
    rewrite (take_chunk_then_rest rest k (Z.to_nat remains)) by lia.
    f_equal. f_equal. lia.
Qed.

Lemma recover_with_file_content os volume bufsize self path w :
  is_directory self = false ->
  opens_succeed os -> reads_succeed os -> writes_succeed os ->
  join path (file_name self) ∉ dirs w ->
  0 < bufsize ->
  exists w',
    recover_with os volume bufsize self path w = Return tt w' /\
    files w' !! join path (file_name self) =
      Some (volume_bytes w (cluster_to_physical_offset volume (first_cluster self))
              (file_size self)).
Proof.
  intros Hfile Ho Hr Hw Hd Hb. rewrite recover_with_eq. simpl.
  rewrite Hfile. run_M.
  unfold seek_to_cluster, infile_seek, LOG, tell, try_except, open_wb. simpl.
  rewrite Ho. rewrite bool_decide_eq_false_2 by done. simpl.
  match goal with |- context [copy_chunks os ?f bufsize ?p ?r ?w1] =>
    destruct (copy_chunks_copies os bufsize p Hb Hr Hw f r w1 [])
      as (w2 & -> & Hf & _); [lia | simpl; apply lookup_insert_eq |]
  end.
  destruct (restore_timestamps_returns os self (join path (file_name self)) w2)
    as (w3 & -> & Hf3 & _).
  exists w3. split; [done |]. rewrite Hf3, Hf. simpl.
  by rewrite lookup_insert_eq.
Qed.

(** C2 (corrected).  For a file entry, when the destination file can be
    opened and no read or write is refused, [recover] leaves at
    [path + '/' + file_name] the bytes of the volume from the offset of
    [first_cluster] on: [file_size] of them when the volume holds that
    many from there, otherwise those up to the end of the volume.  Every
    positive chunk size gives the same file. *)
Theorem recover_file_writes_available_bytes os volume bufsize self path w :
  is_directory self = false ->
  opens_succeed os -> reads_succeed os -> writes_succeed os ->
  join path (file_name self) ∉ dirs w ->
  0 < bufsize ->
  let start := cluster_to_physical_offset volume (first_cluster self) in
  let content := volume_bytes w start (file_size self) in
  (exists w', recover os volume self path w = Return tt w' /\
              files w' !! join path (file_name self) = Some content) /\
  (exists w', recover_with os volume bufsize self path w = Return tt w' /\
              files w' !! join path (file_name self) = Some content) /\
  length content =
    Nat.min (Z.to_nat (file_size self)) (length (infile_data w) - start) /\
  (forall i, (i < length content)%nat ->
             content !! i = infile_data w !! (start + i)%nat) /\
  (0 <= file_size self ->
   (start + Z.to_nat (file_size self) <= length (infile_data w))%nat ->
   Z.of_nat (length content) = file_size self).
Proof.
  intros Hfile Ho Hr Hw Hd Hb start content.
  split; [by apply recover_with_file_content |].
  split; [by apply recover_with_file_content |].
  assert (length content =
          Nat.min (Z.to_nat (file_size self)) (length (infile_data w) - start))
    as Hlen by (unfold content, volume_bytes; by rewrite length_take, length_drop).
  split; [exact Hlen |]. split.
  - intros i Hi. unfold content, volume_bytes.
    rewrite lookup_take_lt by lia. by rewrite lookup_drop.
  - intros Hsize Hfits. rewrite Hlen. lia.
Qed.

Lemma recover_file_writes_available_bytes_witness :
  let w := fresh_run 0x2000 in
  let start := cluster_to_physical_offset small_volume (first_cluster hello_txt) in
  let content := volume_bytes w start (file_size hello_txt) in
  (exists w', recover obliging small_volume hello_txt "/out" w = Return tt w' /\
              files w' !! join "/out" (file_name hello_txt) = Some content) /\
  (exists w', recover_with obliging small_volume 7 hello_txt "/out" w
                = Return tt w' /\
              files w' !! join "/out" (file_name hello_txt) = Some content) /\
  Z.of_nat (length content) = file_size hello_txt.
Proof.
  intros w start content.
  destruct (recover_file_writes_available_bytes obliging small_volume 7
              hello_txt "/out" w) as (H1 & H2 & _ & _ & H3).
  - reflexivity.
  - intros ? ?. reflexivity.
  - intros ? ?. reflexivity.
  - intros ? ? ?. reflexivity.
  - apply not_elem_of_empty.
  - reflexivity.
  - split; [exact H1 |]. split; [exact H2 |]. apply H3; [discriminate |].
    apply Nat.leb_le. vm_compute. reflexivity.
Defined.

(** C2 does not hold as stated.  A plausible file entry of 4096 bytes
    that starts in the last cluster of a volume of ten clusters of 16
    bytes is recovered as a file of 16 bytes; and when the open of the
    destination is refused, [recover] logs that and leaves no file. *)
Lemma recover_end_of_volume_writes_less :
  (is_valid 0x37 ten_clusters (datetime.mkdate 2026 11 3) last_cluster_file
     = true /\
   is_directory last_cluster_file = false /\
   file_after (recover obliging ten_clusters last_cluster_file "/out"
                 (fresh_run 160)) (join "/out" "LAST.BIN")
     = Some (drop 144 (pattern 160)) /\
   ~ writes_exactly_file_size obliging ten_clusters last_cluster_file "/out"
       (fresh_run 160)) /\
  (file_after (recover no_open small_volume hello_txt "/out" (fresh_run 0x2000))
     (join "/out" "HELLO.TXT") = None /\
   ~ writes_exactly_file_size no_open small_volume hello_txt "/out"
       (fresh_run 0x2000)).
Proof.
  assert (file_after (recover obliging ten_clusters last_cluster_file "/out"
                        (fresh_run 160)) (join "/out" "LAST.BIN")
          = Some (drop 144 (pattern 160))) as Hshort
    by (vm_compute; reflexivity).
  assert (file_after (recover no_open small_volume hello_txt "/out"
                        (fresh_run 0x2000)) (join "/out" "HELLO.TXT") = None)
    as Hnone by (vm_compute; reflexivity).
  split.
  - split; [vm_compute; reflexivity |]. split; [reflexivity |].
    split; [exact Hshort |].
    intros (w' & content & E & Hf & Hlen). rewrite E in Hshort.
    simpl in Hshort. change (file_name last_cluster_file) with "LAST.BIN" in Hf.
    rewrite Hf in Hshort. injection Hshort as ->.
    vm_compute in Hlen. discriminate.
  - split; [exact Hnone |].
    intros (w' & content & E & Hf & _). rewrite E in Hnone.
    simpl in Hnone. change (file_name hello_txt) with "HELLO.TXT" in Hf.
    rewrite Hf in Hnone. discriminate.
Qed.

Lemma for_each_cons {A} (x : A) xs body :
  for_each (x :: xs) body = (body x ;; for_each xs body).
Proof. reflexivity. Qed.

(** One level of [recover] on a directory entry. *)
Lemma recover_with_directory os volume bufsize self path w :
  is_directory self = true ->
  let whole := join path (file_name self) in
  let inside :=
    for_each (children self)
      (fun dirent => recover_with os volume bufsize dirent whole) ;;
    restore_timestamps os self whole in
  let w0 := entered volume self path w in
  recover_with os volume bufsize self path w =
  if decide (exists_at w whole) then inside w0
  else if makedirs_fails os w0 whole then
    Return tt (emit (EvLog (LOG_exception "Failed to create directory: %s" whole))
                 (emit (EvMakedirs whole) w0))
  else inside (set_dirs ({[whole]} ∪ dirs w) (emit (EvMakedirs whole) w0)).
Proof.
  intros Hdir whole inside w0. rewrite recover_with_eq. simpl. rewrite Hdir.
  subst w0. unfold entered. fold whole. run_M.
  unfold seek_to_cluster, infile_seek, LOG, tell, path_exists. simpl.
  destruct (decide (exists_at w whole)) as [Hex | Hnex].
  - replace (_ || _) with true; simpl.
    + unfold inside. run_M. by destruct (for_each _ _ _).
    + symmetry. destruct Hex as [H | H];
        [rewrite (bool_decide_eq_true_2 _ H) | rewrite (bool_decide_eq_true_2 _ H)];
        [done | apply orb_true_r].
  - assert (bool_decide (whole ∈ dirs w) = false) as Hd
      by (apply bool_decide_eq_false_2; intros ?; apply Hnex; by left).
    assert (bool_decide (is_Some (files w !! whole)) = false) as Hf
      by (apply bool_decide_eq_false_2; intros ?; apply Hnex; by right).
    rewrite Hd, Hf. simpl. unfold try_except, makedirs. run_M. simpl.
    rewrite Hd, Hf, !orb_false_r.
    destruct (makedirs_fails os _ whole); simpl; [done |].
    unfold inside. run_M. by destruct (for_each _ _ _).
Qed.

(** One level of [recover] on a file entry. *)
Lemma recover_with_file os volume bufsize self path w :
  is_directory self = false ->
  let whole := join path (file_name self) in
  recover_with os volume bufsize self path w =
  (try_except
     (open_wb os whole ;;
      copy_chunks os (Z.to_nat (file_size self)) bufsize whole (file_size self))
     OSError_IOError_OverflowError
     (LOG (LOG_exception "Failed to create file: %s" whole)) ;;
   restore_timestamps os self whole) (entered volume self path w).
Proof.
  intros Hfile whole. rewrite recover_with_eq. simpl. rewrite Hfile.
  unfold entered. fold whole. run_M.
  unfold seek_to_cluster, infile_seek, LOG, tell. simpl.
  by destruct (try_except _ _ _ _).
Qed.

(** The guarded copy of the file case always returns. *)
Lemma guarded_copy_returns os bufsize whole size w :
  0 < bufsize ->
  exists w' evs,
    try_except
      (open_wb os whole ;;
       copy_chunks os (Z.to_nat size) bufsize whole size)
      OSError_IOError_OverflowError
      (LOG (LOG_exception "Failed to create file: %s" whole)) w = Return tt w' /\
    dirs w' = dirs w /\
    trace w' = trace w ++ evs /\
    announced evs = [] /\ restorations evs = [].
Proof.
  intros Hb. unfold try_except, open_wb. run_M.
  destruct (_ || _); simpl.
  { eexists _, [_; _]. split; [reflexivity |]. simpl.
    rewrite <- app_assoc. eauto. }
  match goal with |- context [copy_chunks os ?f bufsize whole size ?w1] =>
    destruct (copy_chunks_ends os bufsize whole Hb f size w1)
      as (w' & evs & [-> | ->] & Hd & _ & Ht & Ha & Hs); [lia | |]
  end; simpl in *.
  - exists w', ([EvOpen whole] ++ evs). split; [done |]. split; [done |].
    rewrite Ht, <- app_assoc. split; [done |].
    by rewrite announced_app, restorations_app, Ha, Hs.
  - eexists _, ([EvOpen whole] ++ evs ++ [_]). split; [reflexivity |]. simpl.
    split; [done |]. rewrite Ht, <- !app_assoc. split; [done |].
    by rewrite !announced_app, !restorations_app, Ha, Hs.
Qed.

Lemma for_each_recover_returns os volume bufsize parent cs :
  Forall (returns_announcing os volume bufsize) cs ->
  forall w, exists w' segs,
    for_each cs (fun c => recover_with os volume bufsize c parent) w
      = Return tt w' /\
    trace w' = trace w ++ concat segs /\
    Forall2 (recovers_under volume parent) cs segs.
Proof.
  induction 1 as [| c cs Hc _ IH]; intros w.
  - exists w, []. simpl. by rewrite app_nil_r.
  - rewrite for_each_cons. run_M.
    destruct (Hc parent w) as (w1 & rest & -> & Ht1).
    destruct (IH w1) as (w' & segs & -> & Ht & Hall).
    exists w', ((entry_events volume c parent ++ rest) :: segs).
    split; [done |]. split.
    + rewrite Ht, Ht1. simpl. by rewrite <- !app_assoc.
    + constructor; [by exists rest | done].
Qed.

Lemma recover_with_returns os volume bufsize :
  0 < bufsize -> forall self, returns_announcing os volume bufsize self.
Proof.
  intros Hb. apply FatXOrphan_tree_ind. intros self IH path w.
  set (whole := join path (file_name self)).
  assert (forall w0, exists w' evs,
            (for_each (children self)
               (fun dirent => recover_with os volume bufsize dirent whole) ;;
             restore_timestamps os self whole) w0 = Return tt w' /\
            trace w' = trace w0 ++ evs) as Hinside.
  { intros w0. run_M.
    destruct (for_each_recover_returns os volume bufsize whole _ IH w0)
      as (w1 & segs & -> & Ht1 & _).
    destruct (restore_timestamps_returns os self whole w1)
      as (w' & -> & _ & _ & [Ht | Ht]); eexists w', _;
      (split; [done |]); rewrite Ht, Ht1, <- app_assoc; done. }
  destruct (is_directory self) eqn:Hdir.
  - rewrite (recover_with_directory os volume bufsize self path w Hdir).
    fold whole. destruct (decide (exists_at w whole)).
    + destruct (Hinside (entered volume self path w)) as (w' & evs & -> & Ht).
      exists w', evs. split; [done |]. by rewrite Ht, entered_trace, <- app_assoc.
    + destruct (makedirs_fails os _ whole).
      * eexists _, [_; _]. split; [done |]. simpl.
        by rewrite <- !app_assoc.
      * match goal with |- context [_ ?w0 = Return _ _] =>
          destruct (Hinside w0) as (w' & evs & -> & Ht) end.
        exists w', (EvMakedirs whole :: evs). split; [done |].
        rewrite Ht. simpl. by rewrite <- !app_assoc.
  - rewrite (recover_with_file os volume bufsize self path w Hdir).
    fold whole.
    destruct (guarded_copy_returns os bufsize whole (file_size self)
                (entered volume self path w) Hb)
      as (w1 & evs & E & _ & Ht1 & _).
    clear Hinside. run_M. rewrite E.
    destruct (restore_timestamps_returns os self whole w1)
      as (w' & -> & _ & _ & [Ht | Ht]); eexists w', _;
      (split; [done |]); rewrite Ht, Ht1, entered_trace, <- !app_assoc; done.
Qed.



(** However the inside of a directory goes, it ends with the attempt to
    restore the timestamps. *)
Lemma inside_ends_with_restoration os volume self whole w0 :
  exists w_before w' evs,
    (for_each (children self) (fun c => recover os volume c whole) ;;
     restore_timestamps os self whole) w0 = Return tt w' /\
    trace w_before = trace w0 ++ evs /\
    ends_with_restoration os self whole w_before w'.
Proof.
  destruct (for_each_recover_returns os volume 0x100000 whole (children self))
    with (w := w0) as (w1 & segs & E1 & Ht1 & _).
  { apply Forall_forall. intros c _. apply recover_with_returns. lia. }
  destruct (restore_timestamps_cases os self whole w1) as (w' & E2 & Hend).
  exists w1, w', (concat segs). unfold recover. run_M. rewrite E1.
  by repeat split.
Qed.

(** C3 (corrected).  After the directory case or the file case of
    [recover], completed or failed, the restoration of the timestamps on
    [path + '/' + file_name] is attempted as the last action, and
    whatever exception that attempt raises is caught and logged, so that
    [recover] returns; except when the entry is a directory that is
    missing and cannot be created: then [recover] logs that failure and
    returns, and no restoration of timestamps is attempted. *)
Theorem recover_restores_timestamps_unless_creation_fails os volume self path w :
  let whole := join path (file_name self) in
  exists w',
    recover os volume self path w = Return tt w' /\
    ((directory_creation_fails os volume self path w /\
      w' = after_failed_creation volume self path w /\
      exists evs, trace w' = trace w ++ evs /\ restorations evs = []) \/
     (~ directory_creation_fails os volume self path w /\
      exists w_before evs,
        trace w_before = trace w ++ evs /\
        ends_with_restoration os self whole w_before w')).
Proof.
  intros whole. unfold directory_creation_fails. fold whole.
  assert (forall w0 pre, trace w0 = trace w ++ pre ->
            exists w_before w' evs,
              (for_each (children self) (fun c => recover os volume c whole) ;;
               restore_timestamps os self whole) w0 = Return tt w' /\
              trace w_before = trace w ++ evs /\
              ends_with_restoration os self whole w_before w')
    as Hinside.
  { intros w0 pre Hpre.
    destruct (inside_ends_with_restoration os volume self whole w0)
      as (w_before & w' & evs & E & Ht & Hend).
    exists w_before, w', (pre ++ evs). split; [exact E |]. split; [| exact Hend].
    by rewrite Ht, Hpre, <- app_assoc. }
  destruct (is_directory self) eqn:Hdir.
  - pose proof (recover_with_directory os volume 0x100000 self path w Hdir)
      as Hstep.
    cbv zeta in Hstep. fold whole in Hstep. fold (recover os volume) in Hstep.
    rewrite Hstep.
    destruct (decide (exists_at w whole)) as [Hex | Hnex].
    + destruct (Hinside (entered volume self path w) _ (entered_trace _ _ _ _))
        as (w_before & w' & evs & -> & Ht & Hend).
      exists w'. split; [done |]. right. split; [tauto | eauto].
    + destruct (makedirs_fails os (entered volume self path w) whole) eqn:Hm.
      * eexists. split; [done |]. left. split; [done |]. split; [done |].
        exists (entry_events volume self path ++
                [EvMakedirs whole;
                 EvLog (LOG_exception "Failed to create directory: %s" whole)]).
        split; [| reflexivity].
        simpl. by rewrite <- !app_assoc.
      * match goal with |- context [_ ?w0 = Return _ _] =>
          destruct (Hinside w0 (entry_events volume self path ++ [EvMakedirs whole]))
            as (w_before & w' & evs & -> & Ht & Hend)
        end.
        { simpl. by rewrite <- !app_assoc. }
        exists w'. split; [done |]. right.
        split; [intros (_ & _ & ?); discriminate | eauto].
  - unfold recover at 1.
    rewrite (recover_with_file os volume 0x100000 self path w Hdir).
    fold whole.
    destruct (guarded_copy_returns os 0x100000 whole (file_size self)
                (entered volume self path w))
      as (w1 & evs & E & _ & Ht1 & _); [lia |].
    destruct (restore_timestamps_cases os self whole w1) as (w' & E2 & Hend).
    exists w'. run_M. rewrite E. split; [exact E2 |]. right.
    split; [intros (? & _); discriminate |].
    exists w1, (entry_events volume self path ++ evs).
    split; [| exact Hend]. by rewrite Ht1, entered_trace, <- app_assoc.
Qed.

(** C3 does not hold without the exception: with a directory that cannot be created,
    [recover] returns without any attempt to restore the timestamps. *)
Lemma recover_failed_directory_skips_restoration :
  ~ restoration_attempted no_mkdir small_volume docs_dir "/out" (fresh_run 64).
Proof.
  intros (w' & evs & E & Ht & Hin).
  assert (recover no_mkdir small_volume docs_dir "/out" (fresh_run 64) =
          Return tt (after_failed_creation small_volume docs_dir "/out"
                       (fresh_run 64))) as E' by reflexivity.
  rewrite E' in E. injection E as <-. simpl in Ht. subst evs.
  vm_compute in Hin. by apply elem_of_nil in Hin.
Qed.

(** The bare [except:] catches what is not an [OSError] as well: when
    applying the timestamps ends in a [ValueError], [recover] still
    returns, its last action the log record of that failure. *)
Lemma recover_catches_ValueError_of_restoration :
  last_event (recover utime_value_error small_volume hello_txt "/out"
                (fresh_run 0x2000))
    = Some (EvLog (LOG_exception "Failed to set timestamp." "")).
Proof. vm_compute. reflexivity. Qed.

(** * Further properties of the validator *)

Lemma name_byte_ok_VALID_CHARS (b : byte) :
  Z.of_N (Byte.to_N b) ∈ VALID_CHARS <-> name_byte_ok b.
Proof.
  unfold name_byte_ok. split.
  - intros H0.
    assert (bool_decide (Z.of_N (Byte.to_N b) ∈ VALID_CHARS) = true) as H
      by (by apply bool_decide_eq_true_2).
    rewrite VALID_CHARS_bytes in H.
    apply negb_true_iff, orb_false_iff in H as [H1 H2].
    apply N.ltb_ge in H1. split; [done |]. intros Hin.
    apply not_true_iff_false in H2. apply H2. apply existsb_exists.
    exists b. split; [done |]. by destruct b.
  - intros [H1 H2]. apply (bool_decide_eq_true_1 _).
    rewrite VALID_CHARS_bytes. apply negb_true_iff, orb_false_iff.
    split; [by apply N.ltb_ge |]. apply not_true_iff_false. intros Hex.
    apply existsb_exists in Hex as (c & Hin & Heq). apply H2.
    replace b with c; [done |]. symmetry. by apply Byte.byte_dec_bl.
Qed.

(** X1.  The verdict of [is_valid], in full: it accepts exactly the
    entries whose first cluster is at most [max_clusters], whose name
    bytes are all at least 0x20 and none of the fourteen forbidden ones,
    and whose three timestamps are present, have fields [datetime] takes
    and a year not after this year.  Attributes, size, kind, children and
    position play no part. *)
Theorem is_valid_exactly mask volume today self :
  is_valid mask volume today self = true <->
  first_cluster self <= max_clusters volume /\
  Forall name_byte_ok (file_name_bytes self) /\
  Forall (fun dt => exists t, dt = Some t /\
                      FatXTimeStamp.year t <= datetime.d_year today /\
                      fields_in_range t) (timestamps self).
Proof.
  rewrite is_valid_true. unfold name_bytes_allowed, iter_bytes.
  rewrite Forall_fmap.
  apply and_iff_compat_l, and_iff_compat_r.
  apply Forall_iff. intros b. apply name_byte_ok_VALID_CHARS.
Qed.

(** X2.  The empty name, [.] and [..] pass the name test: an entry so
    named, with its cluster in range and plausible timestamps, is
    accepted. *)
Theorem is_valid_accepts_special_names mask volume today self :
  In (file_name_bytes self) special_names ->
  first_cluster self <= max_clusters volume ->
  Forall (plausible_timestamp today) (timestamps self) ->
  is_valid mask volume today self = true.
Proof.
  intros Hname Hc Ht. apply is_valid_true. split; [done |]. split; [| done].
  unfold name_bytes_allowed.
  destruct Hname as [<- | [<- | [<- | []]]];
    apply (forallb_bool_decide _); by vm_compute.
Qed.

Lemma is_valid_accepts_special_names_witness :
  is_valid 0x37 small_volume (datetime.mkdate 2026 11 3)
    (small_file ".." 10 4096) = true.
Proof.
  apply is_valid_accepts_special_names.
  - simpl. right. right. left. reflexivity.
  - simpl. lia.
  - repeat constructor; exists ts_2020_01_01;
      (split; [reflexivity |]); (split; [simpl; lia |]);
      unfold fields_in_range, datetime.days_in_month; simpl; lia.
Defined.

(** X3.  The two tables are not each other's complement: the space byte
    is in both, and the control bytes 0x01 to 0x1F are in neither; every
    other byte is in exactly one of them. *)
Theorem VALID_CHARS_INVALID_CHARS_overlap_and_gap (b : byte) :
  let c := Z.of_N (Byte.to_N b) in
  (bool_decide (c ∈ VALID_CHARS) && bool_decide (c ∈ INVALID_CHARS)
   = Byte.eqb b x20) /\
  (negb (bool_decide (c ∈ VALID_CHARS)) && negb (bool_decide (c ∈ INVALID_CHARS))
   = (1 <=? Byte.to_N b)%N && (Byte.to_N b <=? 0x1f)%N).
Proof. destruct b; vm_compute; split; reflexivity. Qed.

(** X4.  Of today's date the validator uses the year only, and a later
    year never turns an accepted entry into a rejected one. *)
Theorem is_valid_stays_valid_later mask volume today later self :
  datetime.d_year today <= datetime.d_year later ->
  is_valid mask volume today self = true ->
  is_valid mask volume later self = true.
Proof.
  intros Hy. rewrite !is_valid_true. intros (Hc & Hn & Ht).
  split; [done |]. split; [done |].
  eapply Forall_impl; [exact Ht |].
  intros dt (t & -> & Hyear & Hr). exists t. split; [done |]. split; [lia | done].
Qed.

Lemma is_valid_stays_valid_later_witness :
  is_valid 0x37 small_volume (datetime.mkdate 2020 12 31) hello_txt = true.
Proof.
  apply (is_valid_stays_valid_later 0x37 small_volume
           (datetime.mkdate 2020 1 1) (datetime.mkdate 2020 12 31)).
  - simpl. lia.
  - reflexivity.
Defined.

(** * Further properties of the signature contract *)

Lemma byte_value_bounds b : 0 <= byte_value b < 256.
Proof.
  unfold byte_value. pose proof (Byte.to_N_bounded b). lia.
Qed.

Lemma little_endian_bounds buf :
  0 <= little_endian buf < 256 ^ Z.of_nat (length buf).
Proof.
  induction buf as [| b buf IH]; simpl length; [simpl; lia |].
  rewrite Nat2Z.inj_succ, Z.pow_succ_r by lia. simpl little_endian.
  pose proof (byte_value_bounds b). lia.
Qed.

Lemma little_endian_app a b :
  little_endian (a ++ b) =
  little_endian a + 256 ^ Z.of_nat (length a) * little_endian b.
Proof.
  induction a as [| c a IH]; simpl length; [simpl; lia |].
  rewrite Nat2Z.inj_succ, Z.pow_succ_r by lia. simpl. rewrite IH. lia.
Qed.

Lemma big_endian_app a b :
  big_endian (a ++ b) =
  big_endian a * 256 ^ Z.of_nat (length b) + big_endian b.
Proof.
  unfold big_endian. rewrite rev_app_distr, little_endian_app, length_rev. lia.
Qed.

Lemma in_order_bounds self buf :
  0 <= in_order self buf < 256 ^ Z.of_nat (length buf).
Proof.
  unfold in_order, big_endian. destruct (String.eqb _ _).
  - apply little_endian_bounds.
  - rewrite <- (length_rev buf). apply little_endian_bounds.
Qed.

(** One read of [size] bytes that the operating system lets through. *)
Lemma read_unsigned_run os size self w :
  read_fails os w (Z.of_nat size) = false ->
  read_unsigned os size self w =
  Return (unpack_unsigned (FatXSignature._endian self) size
            (take size (ahead w)))
         (set_pos (infile_pos w + length (take size (ahead w)))%nat
            (emit (EvRead (Z.of_nat size)) w)).
Proof.
  intros Hr. unfold read_unsigned, read, infile_read, ahead. run_M.
  rewrite Hr.
  replace (Z.of_nat size <? -1) with false
    by (symmetry; apply Z.ltb_ge; lia).
  replace (Z.of_nat size =? -1) with false
    by (symmetry; apply Z.eqb_neq; lia).
  by rewrite Nat2Z.id.
Qed.

Lemma unpack_unsigned_in_order self size buf :
  little self \/ big self -> length buf = size ->
  unpack_unsigned (FatXSignature._endian self) size buf =
  unpacked (in_order self buf).
Proof.
  unfold little, big, unpack_unsigned, in_order.
  intros [-> | ->] <-; simpl; by rewrite Nat.eqb_refl.
Qed.

Lemma unpack_unsigned_short self size buf :
  little self \/ big self -> length buf <> size ->
  unpack_unsigned (FatXSignature._endian self) size buf = struct_error.
Proof.
  unfold little, big, unpack_unsigned.
  intros [-> | ->] Hne; simpl; apply Nat.eqb_neq in Hne; by rewrite Hne.
Qed.

Lemma read_unsigned_value os size self w :
  reads_succeed os -> little self \/ big self ->
  (size <= length (ahead w))%nat ->
  reads_value (read_unsigned os size self) size self w.
Proof.
  intros Hr Ho Hlen. eexists _, _.
  rewrite (read_unsigned_run os size self w (Hr _ _)).
  assert (length (take size (ahead w)) = size) as Htake
    by (rewrite length_take; lia).
  rewrite (unpack_unsigned_in_order self size _ Ho Htake).
  split; [reflexivity |]. split; [reflexivity |]. split.
  - pose proof (in_order_bounds self (take size (ahead w))) as Hb.
    by rewrite Htake in Hb.
  - simpl. by rewrite Htake.
Qed.

Lemma read_unsigned_short os size self w :
  reads_succeed os -> little self \/ big self ->
  (length (ahead w) < size)%nat ->
  reads_short (read_unsigned os size self) w.
Proof.
  intros Hr Ho Hlen. eexists.
  rewrite (read_unsigned_run os size self w (Hr _ _)).
  rewrite (take_ge (ahead w) size) by lia.
  rewrite (unpack_unsigned_short self size _ Ho) by lia.
  split; reflexivity.
Qed.

(** X5.  With a byte order of ['<'] or ['>'] and enough bytes under the
    cursor, [read_u8], [read_u16], [read_u32] and [read_u64] return the
    value of the next 1, 2, 4 and 8 bytes in that order, a number below
    [256] to the power of the size, and move the cursor past them. *)
Theorem read_unsigned_values os self w :
  reads_succeed os -> little self \/ big self ->
  ((1 <= length (ahead w))%nat -> reads_value (read_u8 os self) 1 self w) /\
  ((2 <= length (ahead w))%nat -> reads_value (read_u16 os self) 2 self w) /\
  ((4 <= length (ahead w))%nat -> reads_value (read_u32 os self) 4 self w) /\
  ((8 <= length (ahead w))%nat -> reads_value (read_u64 os self) 8 self w).
Proof.
  intros Hr Ho. repeat split; intros Hlen.
  - exact (read_unsigned_value os 1 self w Hr Ho Hlen).
  - exact (read_unsigned_value os 2 self w Hr Ho Hlen).
  - exact (read_unsigned_value os 4 self w Hr Ho Hlen).
  - exact (read_unsigned_value os 8 self w Hr Ho Hlen).
Qed.

(** X6.  When fewer bytes are left than the integer takes, the read ends
    in [struct.error] and the bytes that were left are consumed: the
    cursor stands at the end of the volume. *)
Theorem read_unsigned_at_end os self w :
  reads_succeed os -> little self \/ big self ->
  ((length (ahead w) < 1)%nat -> reads_short (read_u8 os self) w) /\
  ((length (ahead w) < 2)%nat -> reads_short (read_u16 os self) w) /\
  ((length (ahead w) < 4)%nat -> reads_short (read_u32 os self) w) /\
  ((length (ahead w) < 8)%nat -> reads_short (read_u64 os self) w).
Proof.
  intros Hr Ho. repeat split; intros Hlen.
  - exact (read_unsigned_short os 1 self w Hr Ho Hlen).
  - exact (read_unsigned_short os 2 self w Hr Ho Hlen).
  - exact (read_unsigned_short os 4 self w Hr Ho Hlen).
  - exact (read_unsigned_short os 8 self w Hr Ho Hlen).
Qed.

Lemma read_unsigned_values_witness :
  reads_value (read_u32 obliging foo_at_0x1000) 4 foo_at_0x1000
    (volume_holding header_bytes).
Proof.
  apply read_unsigned_values.
  - intros ? ?. reflexivity.
  - left. reflexivity.
  - vm_compute. lia.
Defined.

Lemma read_unsigned_at_end_witness :
  reads_short (read_u64 obliging foo_at_0x1000) (volume_holding [x34; x12; x78]).
Proof.
  apply read_unsigned_at_end.
  - intros ? ?. reflexivity.
  - left. reflexivity.
  - vm_compute. lia.
Defined.

Lemma ahead_after_read w k e :
  ahead (set_pos (infile_pos w + length (take k (ahead w)))%nat (emit e w)) =
  drop k (ahead w).
Proof.
  unfold ahead. simpl. rewrite <- drop_drop.
  destruct (decide (k <= length (drop (infile_pos w) (infile_data w)))%nat).
  - by rewrite length_take_le.
  - rewrite take_ge by lia. rewrite drop_all. symmetry. apply drop_ge. lia.
Qed.

(** X7.  Two [read_u16] in a row take the same four bytes as one
    [read_u32] and leave the cursor where it leaves it; the 32-bit value
    is made of the two 16-bit ones, the first being the low half in
    little-endian order and the high half in big-endian order. *)
Theorem read_u16_twice_is_read_u32 os self w :
  reads_succeed os -> little self \/ big self ->
  (4 <= length (ahead w))%nat ->
  exists a b v w2 w4,
    (x ← read_u16 os self ; y ← read_u16 os self ; mret (x, y)) w
      = Return (unpacked a, unpacked b) w2 /\
    read_u32 os self w = Return (unpacked v) w4 /\
    infile_pos w2 = infile_pos w4 /\
    (little self -> v = a + 65536 * b) /\
    (big self -> v = a * 65536 + b).
Proof.
  intros Hr Ho Hlen.
  pose proof (read_unsigned_run os 2 self w (Hr _ _)) as E1.
  pose proof (read_unsigned_run os 4 self w (Hr _ _)) as E4.
  set (w1 := set_pos (infile_pos w + length (take 2 (ahead w)))%nat
               (emit (EvRead (Z.of_nat 2)) w)) in *.
  pose proof (read_unsigned_run os 2 self w1 (Hr _ _)) as E2.
  assert (ahead w1 = drop 2 (ahead w)) as Hw1 by apply ahead_after_read.
  rewrite Hw1 in E2.
  assert (length (take 2 (ahead w)) = 2%nat) as L1
    by (rewrite length_take; lia).
  assert (length (take 2 (drop 2 (ahead w))) = 2%nat) as L2
    by (rewrite length_take, length_drop; lia).
  assert (length (take 4 (ahead w)) = 4%nat) as L4
    by (rewrite length_take; lia).
  rewrite (unpack_unsigned_in_order self 2 _ Ho L1) in E1.
  rewrite (unpack_unsigned_in_order self 2 _ Ho L2) in E2.
  rewrite (unpack_unsigned_in_order self 4 _ Ho L4) in E4.
  eexists _, _, _, _, _. split; [| split; [exact E4 |]].
  - change (read_u16 os self) with (read_unsigned os 2 self).
    run_M. rewrite E1, E2. reflexivity.
  - assert (take 4 (ahead w) = take 2 (ahead w) ++ take 2 (drop 2 (ahead w)))
      as Hsplit by (by rewrite take_take_drop).
    split; [simpl; unfold w1; simpl; lia |].
    unfold in_order, little, big. rewrite Hsplit. split; intros Hend; rewrite Hend; simpl.
    + rewrite little_endian_app, L1. lia.
    + rewrite big_endian_app, L2. lia.
Qed.

Lemma read_u16_twice_is_read_u32_witness :
  exists w2 w4,
    (x ← read_u16 obliging foo_at_0x1000 ;
     y ← read_u16 obliging foo_at_0x1000 ; mret (x, y))
      (volume_holding header_bytes)
      = Return (unpacked 0x1234, unpacked 0x5678) w2 /\
    read_u32 obliging foo_at_0x1000 (volume_holding header_bytes)
      = Return (unpacked 0x56781234) w4 /\
    infile_pos w2 = infile_pos w4.
Proof.
  destruct (read_u16_twice_is_read_u32 obliging foo_at_0x1000
              (volume_holding header_bytes))
    as (a & b & v & w2 & w4 & E2 & E4 & Hpos & _).
  - intros ? ?. reflexivity.
  - left. reflexivity.
  - vm_compute. lia.
  - vm_compute in E2. vm_compute in E4.
    injection E2 as <- <- <-. injection E4 as <- <-.
    eexists _, _. split; [vm_compute; reflexivity |].
    split; [vm_compute; reflexivity |]. exact Hpos.
Defined.

(** One round of the loop of [read_cstring] on a byte that is not NUL, or
    at the end of the volume. *)
Lemma read_cstring_loop_step os fuel self acc w :
  read_fails os w 1 = false ->
  take 1 (ahead w) <> [x00] ->
  read_cstring_loop os (S fuel) self acc w =
  read_cstring_loop os fuel self (acc ++ take 1 (ahead w))
    (set_pos (infile_pos w + length (take 1 (ahead w)))%nat
       (emit (EvRead 1) w)).
Proof.
  intros Hr Hne. simpl. unfold read, infile_read. run_M. rewrite Hr. simpl.
  fold (ahead w). change (Z.to_nat 1) with 1%nat.
  destruct (take 1 (ahead w)) as [| b l] eqn:E; [done |].
  destruct b; try done. by destruct l.
Qed.

Lemma read_cstring_loop_stop os fuel self acc w :
  read_fails os w 1 = false ->
  take 1 (ahead w) = [x00] ->
  read_cstring_loop os (S fuel) self acc w =
  Return acc (set_pos (infile_pos w + 1)%nat (emit (EvRead 1) w)).
Proof.
  intros Hr He. simpl. unfold read, infile_read. run_M. rewrite Hr. simpl.
  fold (ahead w). change (Z.to_nat 1) with 1%nat. by rewrite He.
Qed.

Lemma read_cstring_loop_finds os self (Hr : reads_succeed os) s :
  forall fuel acc w rest,
    ahead w = s ++ x00 :: rest -> ~ In x00 s -> (length s < fuel)%nat ->
    exists w',
      read_cstring_loop os fuel self acc w = Return (acc ++ s) w' /\
      infile_pos w' = (infile_pos w + length s + 1)%nat /\
      ahead w' = rest.
Proof.
  induction s as [| b s IH]; intros fuel acc w rest Ha Hn Hf;
    (destruct fuel as [| fuel]; [simpl in Hf; lia |]).
  - rewrite read_cstring_loop_stop; [| apply Hr | by rewrite Ha].
    eexists. split; [by rewrite app_nil_r |]. split; [simpl; lia |].
    unfold ahead in *. simpl. by rewrite <- drop_drop, Ha.
  - rewrite read_cstring_loop_step;
      [| apply Hr | rewrite Ha; simpl; intros [= ->]; apply Hn; by left].
    set (w1 := set_pos _ _).
    destruct (IH fuel (acc ++ take 1 (ahead w)) w1 rest) as (w' & E & Hp & Hrest).
    + unfold w1. by rewrite ahead_after_read, Ha.
    + intros Hin. apply Hn. by right.
    + simpl in Hf. lia.
    + exists w'. rewrite E. split; [rewrite Ha; simpl; by rewrite <- app_assoc |].
      split; [| done]. rewrite Hp. unfold w1. rewrite Ha. simpl. lia.
Qed.

Lemma read_cstring_loop_never_ends os self (Hr : reads_succeed os) fuel :
  forall acc w, ~ In x00 (ahead w) ->
    read_cstring_loop os fuel self acc w = OutOfFuel.
Proof.
  induction fuel as [| fuel IH]; intros acc w Hn; [done |].
  rewrite read_cstring_loop_step; [| apply Hr |].
  - apply IH. rewrite ahead_after_read. intros Hin. apply Hn.
    apply list_elem_of_In. apply list_elem_of_In in Hin.
    by apply (subseteq_drop 1 (ahead w)).
  - intros He. apply Hn. destruct (ahead w) as [| b l]; [done |].
    injection He as ->. by left.
Qed.

(** X8.  [read_cstring] returns the bytes from the cursor up to the first
    NUL, and leaves the cursor behind that NUL. *)
Theorem read_cstring_returns_up_to_NUL os self w s rest fuel :
  reads_succeed os ->
  ahead w = s ++ x00 :: rest -> ~ In x00 s ->
  (length s < fuel)%nat ->
  exists w',
    read_cstring os fuel self w = Return s w' /\
    infile_pos w' = (infile_pos w + length s + 1)%nat /\
    ahead w' = rest.
Proof.
  intros Hr Ha Hn Hf.
  destruct (read_cstring_loop_finds os self Hr s fuel [] w rest Ha Hn Hf)
    as (w' & E & Hp).
  exists w'. by split.
Qed.

(** X9.  When no NUL is left between the cursor and the end of the
    volume, [read_cstring] never returns and never raises: at the end of
    the volume each read yields the empty bytes object, which is not the
    terminator, and the loop goes on. *)
Theorem read_cstring_without_NUL_never_returns os self w :
  reads_succeed os ->
  ~ In x00 (ahead w) ->
  forall fuel, read_cstring os fuel self w = OutOfFuel.
Proof.
  intros Hr Hn fuel. by apply read_cstring_loop_never_ends.
Qed.

Lemma read_cstring_returns_up_to_NUL_witness :
  exists w',
    read_cstring obliging 64 foo_at_0x1000
      (set_pos 4 (volume_holding header_bytes))
    = Return (encode_ascii "default.xbe") w' /\
    infile_pos w' = (4 + length (encode_ascii "default.xbe") + 1)%nat /\
    ahead w' = encode_ascii "rest".
Proof.
  apply (read_cstring_returns_up_to_NUL obliging foo_at_0x1000
           (set_pos 4 (volume_holding header_bytes))
           (encode_ascii "default.xbe") (encode_ascii "rest") 64).
  - intros ? ?. reflexivity.
  - reflexivity.
  - simpl. intuition discriminate.
  - vm_compute. lia.
Defined.

Lemma read_cstring_without_NUL_never_returns_witness :
  read_cstring obliging 1000 foo_at_0x1000
    (volume_holding (encode_ascii "no end")) = OutOfFuel.
Proof.
  apply read_cstring_without_NUL_never_returns.
  - intros ? ?. reflexivity.
  - simpl. intuition discriminate.
Defined.

Lemma join_inj path : Inj (=) (=) (join path).
Proof.
  intros a b H. unfold join in H.
  apply (inj (String.append _)) in H. by apply (inj (String.append _)) in H.
Qed.

(** An extracting [recover], with what it leaves of the world. *)
Lemma signature_recover_extracting_frame os volume self path w n w1 :
  get_file_name self w = Return n w1 ->
  open_fails os w1 (join path n) = false ->
  join path n ∉ dirs w1 ->
  reads_succeed os -> writes_succeed os ->
  extracts self ->
  exists w',
    signature_recover os volume self path w = Return tt w' /\
    files w' = <[join path n := carved volume self w1]> (files w1) /\
    dirs w' = dirs w1 /\
    Unnamed_Counter w' = Unnamed_Counter w1 /\
    infile_data w' = infile_data w1.
Proof.
  intros Hn Ho Hd Hr Hw Hl. unfold signature_recover. run_M.
  rewrite Hn. fold (join path n). unfold open_wb. rewrite Ho.
  rewrite bool_decide_eq_false_2 by done. simpl.
  unfold extracts in Hl.
  replace (negb _ && _) with true
    by (symmetry; apply andb_true_intro; split;
        [apply negb_true_iff | ]; lia).
  unfold seek, seek_file_area, infile_seek, read, infile_read, f_write. simpl.
  rewrite Z.add_0_l. rewrite Hr.
  replace (FatXSignature.length self <? -1) with false by (symmetry; lia).
  replace (FatXSignature.length self =? -1) with false by (symmetry; lia).
  simpl. rewrite Hw.
  eexists. split; [reflexivity |]. simpl.
  repeat split. by rewrite alter_insert_eq.
Qed.

(** Two extracting [recover] in a row. *)
Lemma signature_recover_twice os volume s1 s2 path w n1 w1 w1' n2 w2 :
  opens_succeed os -> reads_succeed os -> writes_succeed os ->
  dirs w = ∅ ->
  extracts s1 -> extracts s2 ->
  get_file_name s1 w = Return n1 w1 ->
  signature_recover os volume s1 path w = Return tt w1' ->
  get_file_name s2 w1' = Return n2 w2 ->
  exists w2',
    signature_recover os volume s2 path w1' = Return tt w2' /\
    files w2' = <[join path n2 := carved volume s2 w]>
                  (<[join path n1 := carved volume s1 w]> (files w)).
Proof.
  intros Ho Hr Hw Hd He1 He2 Hn1 E1 Hn2.
  destruct (get_file_name_returns s1 w) as (? & c1 & Hn1').
  rewrite Hn1 in Hn1'. injection Hn1' as <- ->.
  destruct (signature_recover_extracting_frame os volume s1 path w n1 _ Hn1
              (Ho _ _)) as (w1'' & E1' & Hf1 & Hd1 & Hc1 & Hdata1);
    [simpl; rewrite Hd; apply not_elem_of_empty | done.. |].
  rewrite E1 in E1'. injection E1' as <-.
  destruct (get_file_name_returns s2 w1') as (? & c2 & Hn2').
  rewrite Hn2 in Hn2'. injection Hn2' as <- ->.
  destruct (signature_recover_extracting_frame os volume s2 path w1' n2 _ Hn2
              (Ho _ _)) as (w2' & E2 & Hf2 & _);
    [simpl; rewrite Hd1; simpl; rewrite Hd; apply not_elem_of_empty | done.. |].
  exists w2'. split; [exact E2 |]. rewrite Hf2. simpl. rewrite Hf1.
  unfold carved, volume_bytes. simpl. by rewrite Hdata1.
Qed.

(** X10.  Two unnamed signatures of one class recovered one after the
    other end up in two different files, each with its own bytes: the
    second [recover] does not touch what the first one wrote. *)
Theorem recover_unnamed_twice_keeps_both os volume s1 s2 path w :
  opens_succeed os -> reads_succeed os -> writes_succeed os ->
  dirs w = ∅ ->
  extracts s1 -> extracts s2 ->
  FatXSignature.name s1 = None -> FatXSignature.name s2 = None ->
  FatXSignature.__class__ s2 = FatXSignature.__class__ s1 ->
  exists n1 n2 w1 w2,
    signature_recover os volume s1 path w = Return tt w1 /\
    signature_recover os volume s2 path w1 = Return tt w2 /\
    n1 <> n2 /\
    files w2 !! join path n1 = Some (carved volume s1 w) /\
    files w2 !! join path n2 = Some (carved volume s2 w).
Proof.
  intros Ho Hr Hw Hd He1 He2 Hu1 Hu2 Hcls.
  set (cls := FatXSignature.__class__ s1) in *.
  pose proof (get_file_name_unnamed s1 w Hu1) as Hn1. cbv zeta in Hn1.
  fold cls in Hn1.
  set (k := default 1 (class_getattr (Unnamed_Counter w) cls)) in *.
  destruct (signature_recover_extracting_frame os volume s1 path w _ _ Hn1
              (Ho _ _)) as (w1 & E1 & _ & _ & Hc1 & _);
    [simpl; rewrite Hd; apply not_elem_of_empty | done.. |].
  pose proof (get_file_name_unnamed s2 w1 Hu2) as Hn2. cbv zeta in Hn2.
  rewrite Hcls, Hc1 in Hn2. simpl in Hn2.
  rewrite class_getattr_own in Hn2. simpl in Hn2.
  destruct (signature_recover_twice os volume s1 s2 path w _ _ w1 _ _
              Ho Hr Hw Hd He1 He2 Hn1 E1 Hn2) as (w2 & E2 & Hf).
  assert (numbered cls k <> numbered cls (k + 1)) as Hne
    by (intros H; apply numbered_inj in H; lia).
  exists (numbered cls k), (numbered cls (k + 1)), w1, w2.
  split; [exact E1 |]. split; [exact E2 |]. split; [exact Hne |].
  rewrite Hf. split.
  - rewrite lookup_insert_ne by (intros H; by apply join_inj in H).
    apply lookup_insert_eq.
  - apply lookup_insert_eq.
Qed.

Lemma recover_unnamed_twice_keeps_both_witness :
  exists n1 n2 w1 w2,
    signature_recover obliging small_volume foo_at_0x1000 "/out"
      (fresh_run 0x1100) = Return tt w1 /\
    signature_recover obliging small_volume foo_at_0x1040 "/out" w1
      = Return tt w2 /\
    n1 <> n2 /\
    files w2 !! join "/out" n1 =
      Some (carved small_volume foo_at_0x1000 (fresh_run 0x1100)) /\
    files w2 !! join "/out" n2 =
      Some (carved small_volume foo_at_0x1040 (fresh_run 0x1100)).
Proof.
  apply recover_unnamed_twice_keeps_both.
  - intros ? ?. reflexivity.
  - intros ? ?. reflexivity.
  - intros ? ? ?. reflexivity.
  - reflexivity.
  - split; reflexivity.
  - split; reflexivity.
  - reflexivity.
  - reflexivity.
  - reflexivity.
Defined.

(** X11.  Parsed names are taken as they are: of two signatures whose
    [name] is the same, the one recovered second replaces the file of the
    first, which is left with the second one's bytes only. *)
Theorem recover_same_name_replaces os volume s1 s2 path w n w1 :
  opens_succeed os -> reads_succeed os -> writes_succeed os ->
  dirs w = ∅ ->
  extracts s1 -> extracts s2 ->
  FatXSignature.name s1 = Some n -> FatXSignature.name s2 = Some n ->
  signature_recover os volume s1 path w = Return tt w1 ->
  files w1 !! join path n = Some (carved volume s1 w) /\
  exists w2,
    signature_recover os volume s2 path w1 = Return tt w2 /\
    files w2 !! join path n = Some (carved volume s2 w).
Proof.
  intros Ho Hr Hw Hd He1 He2 Hn1 Hn2 E1.
  pose proof (get_file_name_named s1 w n Hn1) as Hg1.
  pose proof (get_file_name_named s2 w1 n Hn2) as Hg2.
  split.
  - destruct (signature_recover_extracting_frame os volume s1 path w n w Hg1
                (Ho _ _)) as (w1' & E1' & Hf & _);
      [rewrite Hd; apply not_elem_of_empty | done.. |].
    rewrite E1 in E1'. injection E1' as <-. rewrite Hf. apply lookup_insert_eq.
  - destruct (signature_recover_twice os volume s1 s2 path w _ _ w1 _ _
                Ho Hr Hw Hd He1 He2 Hg1 E1 Hg2) as (w2 & E2 & Hf).
    exists w2. split; [exact E2 |]. rewrite Hf. apply lookup_insert_eq.
Qed.

Lemma recover_same_name_replaces_witness :
  exists w1 w2,
    signature_recover obliging small_volume (named_at 0 4) "/out"
      (volume_holding header_bytes) = Return tt w1 /\
    signature_recover obliging small_volume (named_at 4 11) "/out" w1
      = Return tt w2 /\
    files w2 !! join "/out" "default.xbe" =
      Some (carved small_volume (named_at 4 11) (volume_holding header_bytes)).
Proof.
  assert (exists w1, signature_recover obliging small_volume (named_at 0 4)
                       "/out" (volume_holding header_bytes) = Return tt w1)
    as (w1 & E1) by (eexists; vm_compute; reflexivity).
  destruct (recover_same_name_replaces obliging small_volume
              (named_at 0 4) (named_at 4 11) "/out"
              (volume_holding header_bytes) "default.xbe" w1)
    as (_ & w2 & E2 & Hf).
  - intros ? ?. reflexivity.
  - intros ? ?. reflexivity.
  - intros ? ? ?. reflexivity.
  - reflexivity.
  - split; reflexivity.
  - split; reflexivity.
  - reflexivity.
  - reflexivity.
  - exact E1.
  - exists w1, w2. by repeat split.
Defined.

(** X12.  A [length] of -1 passes the test of [recover], and the read it
    leads to is the one without a bound: the file receives everything
    from the signature's offset to the end of the volume. *)
Theorem recover_length_minus_one_reads_to_end os volume self path w n w1 :
  get_file_name self w = Return n w1 ->
  open_fails os w1 (join path n) = false ->
  join path n ∉ dirs w ->
  reads_succeed os -> writes_succeed os ->
  FatXSignature.length self = -1 ->
  exists w',
    signature_recover os volume self path w = Return tt w' /\
    files w' !! join path n =
      Some (drop (file_area_physical_offset volume (FatXSignature._offset self))
              (infile_data w)).
Proof.
  intros Hn Ho Hd Hr Hw Hl.
  destruct (get_file_name_returns self w) as (n' & c & Hn').
  rewrite Hn in Hn'. injection Hn' as -> ->.
  unfold signature_recover. run_M. rewrite Hn. fold (join path n').
  unfold open_wb. rewrite Ho. rewrite bool_decide_eq_false_2 by done.
  rewrite Hl. simpl.
  unfold seek, seek_file_area, infile_seek, read, infile_read, f_write. simpl.
  rewrite Z.add_0_l, Hr. simpl. rewrite Hw.
  eexists. split; [reflexivity |]. simpl.
  by rewrite alter_insert_eq, lookup_insert_eq.
Qed.

Lemma recover_length_minus_one_reads_to_end_witness :
  exists w',
    signature_recover obliging small_volume minus_one_at_4 "/out"
      (volume_holding header_bytes) = Return tt w' /\
    files w' !! join "/out" "all" =
      Some (drop (file_area_physical_offset small_volume
                    (FatXSignature._offset minus_one_at_4))
              (infile_data (volume_holding header_bytes))).
Proof.
  apply (recover_length_minus_one_reads_to_end obliging small_volume
           minus_one_at_4 "/out" (volume_holding header_bytes) "all"
           (volume_holding header_bytes)).
  - reflexivity.
  - reflexivity.
  - apply not_elem_of_empty.
  - intros ? ?. reflexivity.
  - intros ? ? ?. reflexivity.
  - reflexivity.
Defined.

(** X13.  [recover] of a signature catches nothing.  A refused open comes
    out as [OSError] with no file made, yet with the number of an
    automatic name used up; a refused read comes out as [OSError] and
    leaves the file that was just opened, empty. *)
Theorem signature_recover_lets_errors_out os volume self path w n w1 :
  get_file_name self w = Return n w1 ->
  (open_fails os w1 (join path n) = true ->
   exists w',
     signature_recover os volume self path w = Raise OSError w' /\
     files w' = files w /\
     Unnamed_Counter w' = Unnamed_Counter w1) /\
  (open_fails os w1 (join path n) = false ->
   join path n ∉ dirs w ->
   extracts self ->
   (forall w k, read_fails os w k = true) ->
   exists w',
     signature_recover os volume self path w = Raise OSError w' /\
     files w' !! join path n = Some []).
Proof.
  intros Hn.
  destruct (get_file_name_returns self w) as (n' & c & Hn').
  rewrite Hn in Hn'. injection Hn' as -> ->.
  split.
  - intros Ho. unfold signature_recover. run_M. rewrite Hn.
    fold (join path n'). unfold open_wb. rewrite Ho. simpl.
    eexists. by repeat split.
  - intros Ho Hd He Hr. unfold signature_recover. run_M. rewrite Hn.
    fold (join path n'). unfold open_wb. rewrite Ho.
    rewrite bool_decide_eq_false_2 by done. simpl.
    unfold extracts in He.
    replace (negb _ && _) with true
      by (symmetry; apply andb_true_intro; split;
          [apply negb_true_iff | ]; lia).
    unfold seek, seek_file_area, infile_seek, read, infile_read. simpl.
    rewrite Hr. eexists. split; [reflexivity |]. simpl.
    apply lookup_insert_eq.
Qed.

Lemma signature_recover_lets_errors_out_witness :
  let w1 := set_counters {[1%nat := 2]} (fresh_run 32) in
  (exists w',
     signature_recover no_open small_volume foo_at_0x1000 "/out"
       (fresh_run 32) = Raise OSError w' /\
     files w' = files (fresh_run 32) /\
     Unnamed_Counter w' = Unnamed_Counter w1) /\
  (exists w',
     signature_recover no_read small_volume foo_at_0x1000 "/out"
       (fresh_run 32) = Raise OSError w' /\
     files w' !! join "/out" "foosignature1" = Some []).
Proof.
  intros w1.
  assert (get_file_name foo_at_0x1000 (fresh_run 32) =
          Return "foosignature1" w1) as Hg by reflexivity.
  split.
  - apply (signature_recover_lets_errors_out no_open small_volume
             foo_at_0x1000 "/out" (fresh_run 32) "foosignature1" w1 Hg).
    reflexivity.
  - apply (signature_recover_lets_errors_out no_read small_volume
             foo_at_0x1000 "/out" (fresh_run 32) "foosignature1" w1 Hg).
    + reflexivity.
    + apply not_elem_of_empty.
    + split; reflexivity.
    + intros ? ?. reflexivity.
Defined.

(** In any run of calls the unnamed calls on [cls] are numbered upwards
    from some number: the counter of [cls] when it has one, else the one
    it inherits at its first unnamed call, or 1. *)
Lemma auto_names_consecutive cls sigs : forall w,
  ids_identify cls sigs ->
  exists names w' k,
    auto_names sigs w = Return names w' /\
    length names = length sigs /\
    names_for cls sigs names =
      (fun i => numbered cls (k + Z.of_nat i)) <$>
        seq 0 (length (filter (unnamed_call_on cls) sigs)) /\
    (forall c, Unnamed_Counter w !! cls_id cls = Some c -> k = c).
Proof.
  induction sigs as [| s sigs IH]; intros w Hsame.
  - exists [], w, (default 1 (Unnamed_Counter w !! cls_id cls)).
    repeat split; try done. by intros c ->.
  - apply Forall_cons in Hsame as [Hc Hsame]. simpl. run_M.
    destruct (FatXSignature.name s) as [n |] eqn:Hname.
    + rewrite (get_file_name_named s w n Hname).
      destruct (IH w Hsame) as (names & w' & k & -> & Hlen & Hnames & Hk).
      exists (n :: names), w', k. split; [done |]. split; [simpl; lia |].
      split; [| done]. unfold names_for in *. simpl.
      rewrite filter_cons_False by (intros [? _]; simpl in *; congruence).
      rewrite filter_cons_False by (intros [? _]; simpl in *; congruence).
      exact Hnames.
    + rewrite (get_file_name_unnamed s w Hname). cbv zeta.
      set (c := FatXSignature.__class__ s) in *.
      set (v := default 1 (class_getattr (Unnamed_Counter w) c)).
      set (w1 := set_counters (<[cls_id c := v + 1]> (Unnamed_Counter w)) w).
      destruct (IH w1 Hsame) as (names & w' & k & -> & Hlen & Hnames & Hk).
      destruct (decide (cls_id c = cls_id cls)) as [Hid | Hid].
      * assert (c = cls) as Hcls by (by apply Hc).
        exists (numbered c v :: names), w', v. split; [done |].
        split; [simpl; lia |]. split.
        -- unfold names_for in *. simpl.
           rewrite filter_cons_True by (by split).
           rewrite filter_cons_True by (by split).
           rewrite fmap_cons. cbn [length seq]. rewrite fmap_cons. cbn [snd].
           f_equal; [by rewrite Hcls, Z.add_0_r |].
           rewrite Hnames, <- fmap_S_seq, <- list_fmap_compose.
           apply list_fmap_ext. intros _ i _. simpl.
           rewrite (Hk (v + 1)) by (unfold w1; simpl; rewrite Hcls;
                                    apply lookup_insert_eq).
           f_equal. lia.
        -- intros c0 Hc0. unfold v, class_getattr. rewrite Hcls. simpl.
           by rewrite Hc0.
      * exists (numbered c v :: names), w', k. split; [done |].
        split; [simpl; lia |]. split.
        -- unfold names_for in *. simpl.
           rewrite filter_cons_False by (intros [_ ?]; done).
           rewrite filter_cons_False by (intros [_ ?]; done).
           exact Hnames.
        -- intros c0 Hc0. apply Hk. unfold w1. simpl.
           by rewrite lookup_insert_ne.
Qed.

(** X14.  Within a run the automatic names of one class never repeat,
    whatever other calls (named ones, or calls on other classes, the
    classes above it included) come in between and whatever counters are
    already there. *)
Theorem auto_names_never_repeat cls sigs w :
  ids_identify cls sigs ->
  exists names w',
    auto_names sigs w = Return names w' /\
    length names = length sigs /\
    NoDup (names_for cls sigs names).
Proof.
  intros Hsame.
  destruct (auto_names_consecutive cls sigs w Hsame)
    as (names & w' & k & E & Hlen & Hnames & _).
  exists names, w'. split; [exact E |]. split; [exact Hlen |].
  rewrite Hnames. apply NoDup_fmap_2; [| apply NoDup_seq].
  intros i j H. apply numbered_inj in H. lia.
Qed.

Lemma auto_names_never_repeat_witness :
  exists names w',
    auto_names [FatXSignature.__init__ FooSignature "<" 0;
                FatXSignature.__init__ BarSignature "<" 16;
                FatXSignature.__init__ FooSignature "<" 32;
                FatXSignature.__init__ BarSignature "<" 48] (fresh_run 0)
      = Return names w' /\
    length names = 4%nat /\
    NoDup (names_for BarSignature
             [FatXSignature.__init__ FooSignature "<" 0;
              FatXSignature.__init__ BarSignature "<" 16;
              FatXSignature.__init__ FooSignature "<" 32;
              FatXSignature.__init__ BarSignature "<" 48] names).
Proof.
  apply auto_names_never_repeat.
  repeat constructor; simpl; intros H; by try discriminate H.
Defined.

(** X23.  [seek(offset)] counts from where the signature starts, and what
    is read after it does not depend on where the cursor was: [seek(k)]
    followed by [read(n)] yields the [n] bytes of the volume at the
    position of offset [_offset + k] of the file area. *)
Theorem seek_then_read_is_relative_to_offset os volume self k n w :
  reads_succeed os -> 0 <= n ->
  let pos := file_area_physical_offset volume (k + FatXSignature._offset self) in
  exists w',
    (seek volume self k 0 ;; read os self n) w
      = Return (volume_bytes w pos n) w' /\
    infile_pos w' = (pos + length (volume_bytes w pos n))%nat.
Proof.
  intros Hr Hn pos. unfold seek, seek_file_area, infile_seek, read, infile_read.
  run_M. simpl. fold pos. rewrite Hr.
  replace (n <? -1) with false by (symmetry; lia).
  replace (n =? -1) with false by (symmetry; lia).
  eexists. split; reflexivity.
Qed.

Lemma seek_then_read_is_relative_to_offset_witness :
  let pos := file_area_physical_offset small_volume
               (4 + FatXSignature._offset minus_one_at_4) in
  exists w',
    (seek small_volume minus_one_at_4 4 0 ;; read obliging minus_one_at_4 3)
      (set_pos 17 (volume_holding header_bytes))
      = Return (volume_bytes (set_pos 17 (volume_holding header_bytes)) pos 3) w' /\
    infile_pos w' =
      (pos + length (volume_bytes (set_pos 17 (volume_holding header_bytes))
                       pos 3))%nat.
Proof.
  apply (seek_then_read_is_relative_to_offset obliging small_volume
           minus_one_at_4 4 3 (set_pos 17 (volume_holding header_bytes))).
  - intros ? ?. reflexivity.
  - lia.
Defined.

(** * Further properties of orphan recovery *)

Lemma string_app_assoc (a b c : string) : (a +:+ b) +:+ c = a +:+ (b +:+ c).
Proof.
  induction a as [| x a IH]; [done |].
  change (String x ((a +:+ b) +:+ c) = String x (a +:+ b +:+ c)).
  by f_equal.
Qed.

Lemma under_join path name p : under (join path name) p -> under path p.
Proof.
  intros [s ->]. exists (name +:+ "/" +:+ s). unfold join.
  by rewrite !string_app_assoc.
Qed.

Lemma under_self path name : under path (join path name).
Proof. by exists name. Qed.

Lemma event_within_join bufsize path name e :
  event_within bufsize (join path name) e -> event_within bufsize path e.
Proof. destruct e; simpl; eauto using under_join. Qed.

Lemma keeps_refl w : keeps w w.
Proof. by repeat split. Qed.

Lemma keeps_trans w1 w2 w3 : keeps w1 w2 -> keeps w2 w3 -> keeps w1 w3.
Proof.
  intros (Hd1 & Hf1 & Hv1) (Hd2 & Hf2 & Hv2). split; [set_solver |].
  split; [eauto | congruence].
Qed.

Lemma read_sizes_app a b : read_sizes (a ++ b) = read_sizes a ++ read_sizes b.
Proof. apply omap_app. Qed.

(** The copy loop under any operating system: it returns or lets an
    [OSError] out; what it has appended to the file is a prefix of the
    bytes it was to copy; it touches no other file; every read it asks
    for is of at most [bufsize] bytes. *)
Lemma copy_chunks_any os bufsize p : 0 < bufsize ->
  forall fuel remains w acc,
    (Z.to_nat remains <= fuel)%nat ->
    files w !! p = Some acc ->
    exists w' pre evs,
      (copy_chunks os fuel bufsize p remains w = Return tt w' \/
       copy_chunks os fuel bufsize p remains w = Raise OSError w') /\
      files w' = <[p := acc ++ pre]> (files w) /\
      pre `prefix_of` volume_bytes w (infile_pos w) remains /\
      dirs w' = dirs w /\ infile_data w' = infile_data w /\
      trace w' = trace w ++ evs /\
      Forall (fun e => match e with
                       | EvRead n => 0 < n <= bufsize
                       | EvWrite q _ => q = p
                       | _ => False
                       end) evs.
Proof.
  intros Hb. unfold volume_bytes.
  induction fuel as [| fuel IH]; intros remains w acc Hfuel Hacc.
  - exists w, [], []. simpl.
    replace (remains >? 0) with false by (symmetry; lia).
    rewrite !app_nil_r, insert_id by done.
    split; [by left |]. repeat split; try done. apply prefix_nil.
  - simpl. destruct (Z.gtb_spec remains 0) as [Hpos | Hle].
    2:{ exists w, [], []. rewrite !app_nil_r, insert_id by done.
        split; [by left |]. repeat split; try done. apply prefix_nil. }
    run_M. unfold infile_read.
    set (k := Z.min remains bufsize).
    destruct (read_fails os w k).
    { eexists _, [], [EvRead k]. split; [right; reflexivity |]. simpl.
      rewrite app_nil_r, insert_id by done.
      repeat split; try done; [apply prefix_nil |].
      constructor; [lia | constructor]. }
    replace (k <? -1) with false by (symmetry; lia).
    replace (k =? -1) with false by (symmetry; lia).
    unfold f_write.
    set (rest := drop (infile_pos w) (infile_data w)).
    set (buf := take (Z.to_nat k) rest).
    destruct (write_fails os _ _ _).
    { eexists _, [], [EvRead k; EvWrite p buf].
      split; [right; reflexivity |]. simpl.
      rewrite app_nil_r, insert_id, <- app_assoc by done.
      repeat split; try done; [apply prefix_nil |].
      constructor; [lia |]. constructor; [done | constructor]. }
    match goal with |- context [copy_chunks os fuel bufsize p ?r ?w1] =>
      destruct (IH r w1 (acc ++ buf))
        as (w' & pre & evs & Hres & Hf & Hpre & Hd & Hv & Ht & Hev);
        [lia | simpl; by rewrite lookup_alter_eq, Hacc |]
    end.
    exists w', (buf ++ pre), ([EvRead k; EvWrite p buf] ++ evs).
    split; [exact Hres |]. simpl in *.
    split; [by rewrite Hf, insert_alter_eq, <- app_assoc |].
    split.
    { rewrite (take_chunk_then_rest rest (Z.to_nat k) (Z.to_nat remains)) by lia.
      apply prefix_app. fold rest in Hpre. rewrite <- drop_drop in Hpre.
      fold rest in Hpre. fold buf in Hpre.
      replace (Z.to_nat remains - Z.to_nat k)%nat
        with (Z.to_nat (remains - k)) by lia. exact Hpre. }
    split; [done |]. split; [done |].
    split; [by rewrite Ht, <- !app_assoc |].
    constructor; [lia |]. constructor; [done | exact Hev].
Qed.

Lemma restore_timestamps_frame os self p w :
  exists w' tail,
    restore_timestamps os self p w = Return tt w' /\
    files w' = files w /\ dirs w' = dirs w /\
    infile_data w' = infile_data w /\
    trace w' = trace w ++ EvSetTs p :: tail /\
    (tail = [] \/
     tail = [EvLog (LOG_exception "Failed to set timestamp." "")]).
Proof.
  unfold restore_timestamps, try_except, _set_ts.
  destruct (utime_fails os w p); [| destruct (negb _)]; simpl.
  - eexists _, [_]. split; [reflexivity |]. simpl.
    rewrite <- app_assoc. repeat split; eauto.
  - eexists _, [_]. split; [reflexivity |]. simpl.
    rewrite <- app_assoc. repeat split; eauto.
  - eexists _, []. split; [reflexivity |]. simpl. repeat split; eauto.
Qed.

(** The guarded copy of the file case under any operating system. *)
Lemma guarded_copy_any os bufsize path name size w0 :
  0 < bufsize ->
  let whole := join path name in
  exists w1 evs,
    try_except
      (open_wb os whole ;;
       copy_chunks os (Z.to_nat size) bufsize whole size)
      OSError_IOError_OverflowError
      (LOG (LOG_exception "Failed to create file: %s" whole)) w0
      = Return tt w1 /\
    trace w1 = trace w0 ++ evs /\
    Forall (event_within bufsize path) evs /\
    announced evs = [] /\
    dirs w1 = dirs w0 /\ infile_data w1 = infile_data w0 /\
    (open_fails os w0 whole || bool_decide (whole ∈ dirs w0) = true ->
     files w1 = files w0 /\
     evs = [EvOpen whole;
            EvLog (LOG_exception "Failed to create file: %s" whole)]) /\
    (open_fails os w0 whole || bool_decide (whole ∈ dirs w0) = false ->
     exists pre,
       files w1 = <[whole := pre]> (files w0) /\
       pre `prefix_of` volume_bytes w0 (infile_pos w0) size /\
       (size <= 0 -> evs = [EvOpen whole])).
Proof.
  intros Hb whole. unfold try_except, open_wb. run_M.
  destruct (open_fails os w0 whole || bool_decide (whole ∈ dirs w0)) eqn:Ho;
    simpl.
  { eexists _, [_; _]. split; [reflexivity |]. simpl.
    rewrite <- app_assoc. split; [done |].
    split; [repeat constructor; apply under_self |].
    repeat split; try done. }
  match goal with |- context [copy_chunks os ?f bufsize whole size ?w1] =>
    destruct (copy_chunks_any os bufsize whole Hb f size w1 [])
      as (w' & pre & evs & Hres & Hf & Hpre & Hd & Hv & Ht & Hev);
      [lia | simpl; apply lookup_insert_eq |]
  end.
  simpl in *.
  assert (Forall (event_within bufsize path) evs) as Hin.
  { eapply Forall_impl; [exact Hev |]. intros [] He; simpl in *; try done.
    subst. apply under_self. }
  assert (announced evs = []) as Han.
  { clear -Hev. induction Hev as [| e evs He _ IH]; [done |].
    destruct e; try done; exact IH. }
  assert (size <= 0 ->
          evs = [] /\
          forall w1 f, copy_chunks os f bufsize whole size w1 = Return tt w1)
    as Hnone.
  { intros Hs. split.
    - clear -Hres Ht Hs.
      replace (Z.to_nat size) with 0%nat in Hres by lia. simpl in Hres.
      replace (size >? 0) with false in Hres by (symmetry; lia).
      destruct Hres as [[= <-] | [=]]. simpl in Ht.
      rewrite <- (app_nil_r (trace w0 ++ [EvOpen whole])) in Ht at 1.
      by apply app_inv_head in Ht.
    - intros w1 f. destruct f; simpl;
        by replace (size >? 0) with false by (symmetry; lia). }
  rewrite insert_insert_eq in Hf.
  destruct Hres as [E | E]; rewrite E; simpl.
  - exists w', (EvOpen whole :: evs). split; [done |].
    split; [by rewrite Ht, <- app_assoc |].
    split; [constructor; [apply under_self | done] |].
    split; [exact Han |]. split; [done |]. split; [done |].
    split; [done |]. intros _. exists pre. split; [done |]. split; [done |].
    intros Hs. by rewrite (proj1 (Hnone Hs)).
  - eexists _, (EvOpen whole :: evs ++ [_]). split; [reflexivity |]. simpl.
    split; [by rewrite Ht, <- !app_assoc |].
    split; [constructor; [apply under_self |];
            apply Forall_app; split; [done | by repeat constructor] |].
    split; [unfold announced in *; simpl; rewrite omap_app, Han; done |].
    split; [done |]. split; [done |]. split; [done |].
    intros _. exists pre. split; [done |]. split; [done |].
    intros Hs. exfalso. destruct (Hnone Hs) as [_ Hret].
    rewrite Hret in E. discriminate E.
Qed.

(** [recover] on a file entry under any operating system. *)
Lemma recover_with_file_any os volume bufsize self path w :
  is_directory self = false -> 0 < bufsize ->
  let whole := join path (file_name self) in
  let refused :=
    open_fails os (entered volume self path w) whole
    || bool_decide (whole ∈ dirs w) in
  exists w' evs tail,
    recover_with os volume bufsize self path w = Return tt w' /\
    trace w' = trace w ++ entry_events volume self path ++ evs ++
               EvSetTs whole :: tail /\
    (tail = [] \/
     tail = [EvLog (LOG_exception "Failed to set timestamp." "")]) /\
    Forall (event_within bufsize path) evs /\
    announced evs = [] /\
    dirs w' = dirs w /\ infile_data w' = infile_data w /\
    (refused = true ->
     files w' = files w /\
     evs = [EvOpen whole;
            EvLog (LOG_exception "Failed to create file: %s" whole)]) /\
    (refused = false ->
     exists pre,
       files w' = <[whole := pre]> (files w) /\
       pre `prefix_of`
         volume_bytes w (cluster_to_physical_offset volume (first_cluster self))
           (file_size self) /\
       (file_size self <= 0 -> evs = [EvOpen whole])).
Proof.
  intros Hfile Hb whole refused.
  rewrite (recover_with_file os volume bufsize self path w Hfile).
  fold whole.
  destruct (guarded_copy_any os bufsize path (file_name self) (file_size self)
              (entered volume self path w) Hb)
    as (w1 & evs & E & Ht1 & Hin & Han & Hd1 & Hv1 & Hno & Hyes).
  fold whole in E, Hno, Hyes.
  destruct (restore_timestamps_frame os self whole w1)
    as (w' & tail & E2 & Hf2 & Hd2 & Hv2 & Ht2 & Htail).
  exists w', evs, tail. run_M. rewrite E. split; [exact E2 |].
  split; [by rewrite Ht2, Ht1, entered_trace, <- !app_assoc |].
  split; [exact Htail |]. split; [exact Hin |]. split; [exact Han |].
  split; [by rewrite Hd2, Hd1 |]. split; [by rewrite Hv2, Hv1 |].
  split.
  - intros Hr. destruct (Hno Hr) as [Hf ->]. by rewrite Hf2, Hf.
  - intros Hr. destruct (Hyes Hr) as (pre & Hf & Hpre & Hs).
    exists pre. by rewrite Hf2, Hf.
Qed.

(** X15.  Whatever the operating system refuses after the open, the file
    a file entry is recovered to holds a prefix of the bytes it was to
    receive, never anything else; no other file and no directory is
    touched. *)
Theorem recover_file_leaves_prefix os volume self path w :
  is_directory self = false ->
  let whole := join path (file_name self) in
  open_fails os (entered volume self path w) whole = false ->
  whole ∉ dirs w ->
  exists w' content,
    recover os volume self path w = Return tt w' /\
    files w' !! whole = Some content /\
    content `prefix_of`
      volume_bytes w (cluster_to_physical_offset volume (first_cluster self))
        (file_size self) /\
    (forall q, q <> whole -> files w' !! q = files w !! q) /\
    dirs w' = dirs w.
Proof.
  intros Hfile whole Ho Hd.
  destruct (recover_with_file_any os volume 0x100000 self path w Hfile)
    as (w' & evs & tail & E & _ & _ & _ & _ & Hd' & _ & _ & Hyes); [lia |].
  fold whole in Hyes. destruct Hyes as (pre & Hf & Hpre & _).
  { rewrite Ho. simpl. by apply bool_decide_eq_false_2. }
  exists w', pre. split; [exact E |]. rewrite Hf.
  split; [apply lookup_insert_eq |]. split; [exact Hpre |].
  split; [| exact Hd']. intros q Hq. by rewrite lookup_insert_ne.
Qed.

Lemma recover_file_leaves_prefix_witness :
  exists w' content,
    recover no_read small_volume hello_txt "/out" (fresh_run 0x2000)
      = Return tt w' /\
    files w' !! join "/out" (file_name hello_txt) = Some content /\
    content `prefix_of`
      volume_bytes (fresh_run 0x2000)
        (cluster_to_physical_offset small_volume (first_cluster hello_txt))
        (file_size hello_txt).
Proof.
  destruct (recover_file_leaves_prefix no_read small_volume hello_txt "/out"
              (fresh_run 0x2000)) as (w' & content & E & Hf & Hp & _).
  - reflexivity.
  - reflexivity.
  - apply not_elem_of_empty.
  - by exists w', content.
Defined.

(** X17.  A file entry of size 0, or below, is recovered to an empty
    file: the file is opened, nothing is read, and the timestamps are
    restored. *)
Theorem recover_empty_file os volume self path w :
  is_directory self = false ->
  file_size self <= 0 ->
  let whole := join path (file_name self) in
  open_fails os (entered volume self path w) whole = false ->
  whole ∉ dirs w ->
  exists w' tail,
    recover os volume self path w = Return tt w' /\
    files w' !! whole = Some [] /\
    trace w' = trace w ++ entry_events volume self path ++
               [EvOpen whole; EvSetTs whole] ++ tail /\
    read_sizes tail = [].
Proof.
  intros Hfile Hs whole Ho Hd.
  destruct (recover_with_file_any os volume 0x100000 self path w Hfile)
    as (w' & evs & tail & E & Ht & Htail & _ & _ & _ & _ & _ & Hyes); [lia |].
  fold whole in Hyes, Ht. destruct Hyes as (pre & Hf & Hpre & Hevs).
  { rewrite Ho. simpl. by apply bool_decide_eq_false_2. }
  exists w', tail. split; [exact E |].
  unfold volume_bytes in Hpre.
  replace (Z.to_nat (file_size self)) with 0%nat in Hpre by lia.
  rewrite take_0 in Hpre. apply prefix_nil_inv in Hpre. subst pre.
  split; [rewrite Hf; apply lookup_insert_eq |].
  rewrite (Hevs Hs) in Ht. split; [exact Ht |].
  by destruct Htail as [-> | ->].
Qed.

Lemma recover_empty_file_witness :
  exists w' tail,
    recover obliging small_volume (small_file "EMPTY" 4 0) "/out"
      (fresh_run 64) = Return tt w' /\
    files w' !! join "/out" "EMPTY" = Some [] /\
    trace w' = trace (fresh_run 64) ++
               entry_events small_volume (small_file "EMPTY" 4 0) "/out" ++
               [EvOpen (join "/out" "EMPTY"); EvSetTs (join "/out" "EMPTY")]
               ++ tail /\
    read_sizes tail = [].
Proof.
  apply (recover_empty_file obliging small_volume (small_file "EMPTY" 4 0)
           "/out" (fresh_run 64)).
  - reflexivity.
  - simpl. lia.
  - reflexivity.
  - apply not_elem_of_empty.
Defined.

(** X18.  When the destination file cannot be opened, [recover] logs the
    failure, changes no file and no directory, still attempts to restore
    the timestamps, and returns. *)
Theorem recover_file_open_refused os volume self path w :
  is_directory self = false ->
  let whole := join path (file_name self) in
  open_fails os (entered volume self path w) whole = true \/ whole ∈ dirs w ->
  exists w' tail,
    recover os volume self path w = Return tt w' /\
    files w' = files w /\ dirs w' = dirs w /\
    trace w' = trace w ++ entry_events volume self path ++
               [EvOpen whole;
                EvLog (LOG_exception "Failed to create file: %s" whole);
                EvSetTs whole] ++ tail /\
    read_sizes tail = [].
Proof.
  intros Hfile whole Hr.
  destruct (recover_with_file_any os volume 0x100000 self path w Hfile)
    as (w' & evs & tail & E & Ht & Htail & _ & _ & Hd & _ & Hno & _); [lia |].
  fold whole in Hno, Ht. destruct Hno as [Hf ->].
  { destruct Hr as [-> | Hin]; [done |].
    rewrite (bool_decide_eq_true_2 _ Hin). apply orb_true_r. }
  exists w', tail. split; [exact E |]. split; [exact Hf |]. split; [exact Hd |].
  split; [exact Ht |]. by destruct Htail as [-> | ->].
Qed.

Lemma recover_file_open_refused_witness :
  exists w' tail,
    recover no_open small_volume hello_txt "/out" (fresh_run 64)
      = Return tt w' /\
    files w' = files (fresh_run 64) /\ dirs w' = dirs (fresh_run 64) /\
    trace w' = trace (fresh_run 64) ++
               entry_events small_volume hello_txt "/out" ++
               [EvOpen (join "/out" (file_name hello_txt));
                EvLog (LOG_exception "Failed to create file: %s"
                         (join "/out" (file_name hello_txt)));
                EvSetTs (join "/out" (file_name hello_txt))] ++ tail /\
    read_sizes tail = [].
Proof.
  apply (recover_file_open_refused no_open small_volume hello_txt "/out"
           (fresh_run 64)).
  - reflexivity.
  - left. reflexivity.
Defined.

Lemma for_each_recovers_within os volume bufsize cs :
  Forall (recovers_within os volume bufsize) cs ->
  forall parent w, exists w' evs,
    for_each cs (fun c => recover_with os volume bufsize c parent) w
      = Return tt w' /\
    trace w' = trace w ++ evs /\
    Forall (event_within bufsize parent) evs /\
    keeps w w' /\
    (makedirs_succeed os ->
     announced evs = concat (List.map (preorder parent) cs)).
Proof.
  induction 1 as [| c cs Hc _ IH]; intros parent w.
  - exists w, []. simpl. rewrite app_nil_r.
    split; [done |]. split; [done |]. split; [constructor |].
    split; [apply keeps_refl | done].
  - rewrite for_each_cons. run_M.
    destruct (Hc parent w) as (w1 & evs1 & -> & Ht1 & Hin1 & Hk1 & Ha1).
    destruct (IH parent w1) as (w' & evs & -> & Ht & Hin & Hk & Ha).
    exists w', (evs1 ++ evs). split; [done |].
    split; [by rewrite Ht, Ht1, <- app_assoc |].
    split; [by apply Forall_app |].
    split; [by eapply keeps_trans |].
    intros Hm. simpl. by rewrite announced_app, Ha1, Ha.
Qed.

Lemma recover_with_within os volume bufsize :
  0 < bufsize -> forall self, recovers_within os volume bufsize self.
Proof.
  intros Hb. apply FatXOrphan_tree_ind. intros self IH path w.
  set (whole := join path (file_name self)).
  assert (forall w0 pre,
            trace w0 = trace w ++ entry_events volume self path ++ pre ->
            Forall (event_within bufsize path) pre ->
            announced pre = [] ->
            keeps w w0 ->
            exists w' evs,
              (for_each (children self)
                 (fun dirent => recover_with os volume bufsize dirent whole) ;;
               restore_timestamps os self whole) w0 = Return tt w' /\
              trace w' = trace w ++ evs /\
              Forall (event_within bufsize path) evs /\
              keeps w w' /\
              (makedirs_succeed os ->
               announced evs =
                 whole :: concat (List.map (preorder whole) (children self))))
    as Hinside.
  { intros w0 pre Hpre Hpin Hpan Hk0. run_M.
    destruct (for_each_recovers_within os volume bufsize _ IH whole w0)
      as (w1 & evs & -> & Ht1 & Hin1 & Hk1 & Ha1).
    destruct (restore_timestamps_frame os self whole w1)
      as (w' & tail & -> & Hf2 & Hd2 & Hv2 & Ht2 & Htail).
    exists w', (entry_events volume self path ++ pre ++ evs ++
                EvSetTs whole :: tail).
    split; [done |].
    split; [by rewrite Ht2, Ht1, Hpre, <- !app_assoc |].
    split.
    { repeat apply Forall_app_2; try done.
      - by repeat constructor.
      - eapply Forall_impl; [exact Hin1 |]. intros e.
        apply event_within_join.
      - constructor; [apply under_self |].
        by destruct Htail as [-> | ->]; repeat constructor. }
    split.
    { eapply keeps_trans; [exact Hk0 |]. eapply keeps_trans; [exact Hk1 |].
      unfold keeps. rewrite Hf2, Hd2, Hv2. apply keeps_refl. }
    intros Hm. rewrite !announced_app, Hpan, (Ha1 Hm).
    change (announced (entry_events volume self path)) with [whole].
    assert (announced (EvSetTs whole :: tail) = []) as ->
      by (by destruct Htail as [-> | ->]).
    simpl. by rewrite app_nil_r. }
  destruct (is_directory self) eqn:Hdir.
  - rewrite (recover_with_directory os volume bufsize self path w Hdir).
    fold whole.
    assert (preorder path self =
            whole :: concat (List.map (preorder whole) (children self))) as Hpre.
    { destruct self. simpl in *. by rewrite Hdir. }
    rewrite Hpre.
    destruct (decide (exists_at w whole)).
    + apply (Hinside (entered volume self path w) []);
        [by rewrite entered_trace, app_nil_r | done | done
        | exact (keeps_refl w)].
    + destruct (makedirs_fails os _ whole) eqn:Hm.
      * eexists _, (entry_events volume self path ++ [_; _]).
        split; [done |]. split; [simpl; by rewrite <- !app_assoc |].
        split; [repeat constructor; apply under_self |].
        split; [exact (keeps_refl w) |].
        intros Hall. by rewrite Hall in Hm.
      * apply (Hinside _ [EvMakedirs whole]).
        -- simpl. by rewrite <- !app_assoc.
        -- repeat constructor. apply under_self.
        -- done.
        -- split; [simpl; set_solver |]. by split.
  - destruct (recover_with_file_any os volume bufsize self path w Hdir Hb)
      as (w' & evs & tail & E & Ht & Htail & Hin & Han & Hd & Hv & Hno & Hyes).
    fold whole in Ht, Hno, Hyes.
    exists w', (entry_events volume self path ++ evs ++ EvSetTs whole :: tail).
    split; [exact E |]. split; [exact Ht |]. split.
    { repeat apply Forall_app_2; try done; [by repeat constructor |].
      constructor; [apply under_self |].
      by destruct Htail as [-> | ->]; repeat constructor. }
    split.
    { split; [by rewrite Hd |]. split; [| done].
      destruct (open_fails os (entered volume self path w) whole
                || bool_decide (whole ∈ dirs w)) eqn:Hr.
      - destruct (Hno eq_refl) as [-> _]. done.
      - destruct (Hyes eq_refl) as (pre & -> & _). intros q Hq.
        destruct (decide (whole = q)) as [<- | Hne];
          [rewrite lookup_insert_eq; eauto | by rewrite lookup_insert_ne]. }
    intros _. rewrite !announced_app, Han.
    change (announced (entry_events volume self path)) with [whole].
    assert (preorder path self = [whole]) as ->
      by (destruct self; simpl in *; by rewrite Hdir).
    assert (announced (EvSetTs whole :: tail) = []) as ->
      by (by destruct Htail as [-> | ->]).
    done.
Qed.

Lemma read_sizes_within bufsize path evs :
  Forall (event_within bufsize path) evs ->
  Forall (fun n => 0 < n <= bufsize) (read_sizes evs).
Proof.
  induction 1 as [| e evs He _ IH]; [constructor |].
  destruct e; try exact IH. by constructor.
Qed.

Lemma touched_within bufsize path evs :
  Forall (event_within bufsize path) evs ->
  Forall (under path) (touched evs).
Proof.
  induction 1 as [| e evs He _ IH]; [constructor |].
  destruct e; try exact IH; by constructor.
Qed.

(** X19.  [recover] never asks the volume for more than 0x100000 bytes in
    one read, on any tree and whatever fails on the way, and it always
    returns. *)
Theorem recover_reads_in_bounded_chunks os volume self path w :
  exists w' evs,
    recover os volume self path w = Return tt w' /\
    trace w' = trace w ++ evs /\
    Forall (fun n => 0 < n <= 0x100000) (read_sizes evs).
Proof.
  destruct (recover_with_within os volume 0x100000 eq_refl self path w)
    as (w' & evs & E & Ht & Hin & _).
  exists w', evs. split; [exact E |]. split; [exact Ht |].
  by eapply read_sizes_within.
Qed.

(** X20.  Every path [recover] opens, writes to, creates or stamps is
    [path + '/'] followed by something: as text, nothing is touched
    outside the destination. *)
Theorem recover_touches_only_below_path os volume self path w :
  exists w' evs,
    recover os volume self path w = Return tt w' /\
    trace w' = trace w ++ evs /\
    Forall (under path) (touched evs).
Proof.
  destruct (recover_with_within os volume 0x100000 eq_refl self path w)
    as (w' & evs & E & Ht & Hin & _).
  exists w', evs. split; [exact E |]. split; [exact Ht |].
  by eapply touched_within.
Qed.

(** X21.  [recover] removes nothing: every directory and every file of
    the destination tree is still there afterwards (a file may have been
    overwritten), and the volume is unchanged. *)
Theorem recover_removes_nothing os volume self path w :
  exists w',
    recover os volume self path w = Return tt w' /\
    dirs w ⊆ dirs w' /\
    (forall q, is_Some (files w !! q) -> is_Some (files w' !! q)) /\
    infile_data w' = infile_data w.
Proof.
  destruct (recover_with_within os volume 0x100000 eq_refl self path w)
    as (w' & evs & E & _ & _ & Hk & _).
  exists w'. split; [exact E | exact Hk].
Qed.

(** X22.  When no directory is refused, [recover] announces every entry
    of the tree exactly as the tree lists them, parents before their
    children and children in their order, each under the path it is
    recovered to; failures of files on the way change nothing of that. *)
Theorem recover_announces_tree_in_order os volume self path w :
  makedirs_succeed os ->
  exists w' evs,
    recover os volume self path w = Return tt w' /\
    trace w' = trace w ++ evs /\
    announced evs = preorder path self.
Proof.
  intros Hm.
  destruct (recover_with_within os volume 0x100000 eq_refl self path w)
    as (w' & evs & E & Ht & _ & _ & Ha).
  exists w', evs. split; [exact E |]. split; [exact Ht |]. by apply Ha.
Qed.

Lemma recover_announces_tree_in_order_witness :
  exists w' evs,
    recover no_read small_volume docs_dir "/out" (fresh_run 64)
      = Return tt w' /\
    trace w' = trace (fresh_run 64) ++ evs /\
    announced evs = preorder "/out" docs_dir.
Proof.
  apply recover_announces_tree_in_order. intros ? ?. reflexivity.
Defined.

Lemma copy_chunks_read_sizes os bufsize p :
  0 < bufsize -> reads_succeed os -> writes_succeed os ->
  forall fuel remains w,
    (Z.to_nat remains <= fuel)%nat ->
    exists w' evs,
      copy_chunks os fuel bufsize p remains w = Return tt w' /\
      trace w' = trace w ++ evs /\
      total (read_sizes evs) = Z.max 0 remains.
Proof.
  intros Hb Hr Hw.
  induction fuel as [| fuel IH]; intros remains w Hfuel.
  - exists w, []. simpl. replace (remains >? 0) with false by (symmetry; lia).
    rewrite app_nil_r. repeat split. simpl. lia.
  - simpl. destruct (Z.gtb_spec remains 0) as [Hpos | Hle].
    2:{ exists w, []. rewrite app_nil_r. repeat split. simpl. lia. }
    run_M. unfold infile_read. rewrite Hr.
    replace (Z.min remains bufsize <? -1) with false by (symmetry; lia).
    replace (Z.min remains bufsize =? -1) with false by (symmetry; lia).
    unfold f_write. rewrite Hw.
    match goal with |- context [copy_chunks os fuel bufsize p ?r ?w1] =>
      destruct (IH r w1) as (w' & evs & -> & Ht & Hsum); [lia |]
    end.
    eexists w', ([EvRead _; EvWrite p _] ++ evs). split; [done |].
    split; [simpl in *; by rewrite Ht, <- !app_assoc |].
    rewrite read_sizes_app. change (read_sizes [EvRead ?n; EvWrite p ?b])
      with [n]. simpl. fold (total (read_sizes evs)). lia.
Qed.

(** X16.  When the volume ends before [file_size] bytes, [recover] still
    asks for all of them, chunk after chunk, and returns; the file gets
    the bytes there are, so its length is the smaller of [file_size] and
    what the volume holds from the first cluster on. *)
Theorem recover_past_end_of_volume os volume self path w :
  is_directory self = false ->
  opens_succeed os -> reads_succeed os -> writes_succeed os ->
  join path (file_name self) ∉ dirs w ->
  let start := cluster_to_physical_offset volume (first_cluster self) in
  exists w' evs content,
    recover os volume self path w = Return tt w' /\
    trace w' = trace w ++ evs /\
    files w' !! join path (file_name self) = Some content /\
    length content =
      Nat.min (Z.to_nat (file_size self)) (length (infile_data w) - start) /\
    total (read_sizes evs) = Z.max 0 (file_size self).
Proof.
  intros Hfile Ho Hr Hw Hd start.
  set (whole := join path (file_name self)).
  unfold recover.
  rewrite (recover_with_file os volume 0x100000 self path w Hfile).
  fold whole. unfold try_except, open_wb. run_M.
  rewrite Ho. rewrite bool_decide_eq_false_2 by done. simpl.
  match goal with |- context [copy_chunks os ?f ?b whole ?r ?w1] =>
    destruct (copy_chunks_copies os b whole eq_refl Hr Hw f r w1 [])
      as (w2 & E & Hf & _); [lia | simpl; apply lookup_insert_eq |];
    destruct (copy_chunks_read_sizes os b whole eq_refl Hr Hw f r w1)
      as (w2' & evs & E' & Ht & Hsum); [lia |]
  end.
  rewrite E in E'. injection E' as <-. rewrite E.
  destruct (restore_timestamps_frame os self whole w2)
    as (w' & tail & -> & Hf2 & _ & _ & Ht2 & Htail).
  exists w', (entry_events volume self path ++ [EvOpen whole] ++ evs ++
              EvSetTs whole :: tail),
    (volume_bytes w start (file_size self)).
  split; [done |]. simpl in *. split.
  { rewrite Ht2, Ht. simpl. by rewrite <- !app_assoc. }
  split; [rewrite Hf2, Hf; simpl; by rewrite lookup_insert_eq |].
  split; [unfold volume_bytes; by rewrite length_take, length_drop |].
  rewrite !read_sizes_app.
  change (read_sizes (entry_events volume self path)) with (@nil Z).
  change (read_sizes [EvOpen whole]) with (@nil Z).
  assert (read_sizes (EvSetTs whole :: tail) = []) as ->
    by (by destruct Htail as [-> | ->]).
  simpl. by rewrite app_nil_r.
Qed.

Lemma recover_past_end_of_volume_witness :
  let start := cluster_to_physical_offset small_volume (first_cluster hello_txt) in
  exists w' evs content,
    recover obliging small_volume hello_txt "/out" (fresh_run 200)
      = Return tt w' /\
    trace w' = trace (fresh_run 200) ++ evs /\
    files w' !! join "/out" (file_name hello_txt) = Some content /\
    length content =
      Nat.min (Z.to_nat (file_size hello_txt))
        (length (infile_data (fresh_run 200)) - start) /\
    total (read_sizes evs) = Z.max 0 (file_size hello_txt).
Proof.
  apply (recover_past_end_of_volume obliging small_volume hello_txt "/out"
           (fresh_run 200)).
  - reflexivity.
  - intros ? ?. reflexivity.
  - intros ? ?. reflexivity.
  - intros ? ? ?. reflexivity.
  - apply not_elem_of_empty.
Defined.
